(** * Activity board client (src/static/app.js)

    A shallow embedding of the browser script that lists the activities of
    the school, signs a student up and removes a participant.

    The script is DOM glue around three HTTP calls.  Its pure parts (the
    markup templates, the arithmetic of the remaining places, the request
    URLs) are Rocq functions on strings; its stateful parts (the two DOM
    regions, the form, the message box, the timers, the requests issued) are
    actions on an explicit [World].  An [async] function is cut at its
    [await]: one action up to the request, one action that resumes with the
    outcome of the request.

    Conventions.
    - A JavaScript string is modelled by the bytes of its UTF-8 encoding
      (well-formed text); [String.length] is never taken by the script.
    - [max_participants] is an integer; it is modelled in [Z].  JavaScript
      computes with IEEE doubles: [Js.to_double] gives the double an integer
      is rounded to, and the statements on the printed number carry the
      range in which the computation in [Z] and the computation in doubles
      agree ([App.within_exact_range]).
    - What the browser does with a markup string assigned to [innerHTML] is
      not part of the script: module [Html] models the part of the HTML
      tokenizer that is needed to read start tags and attributes back, and
      answers [None] on markup outside that part. *)

From Stdlib Require Import List String Ascii ZArith NArith Lia Bool.
From Stdlib Require Import Numbers.DecimalString Numbers.DecimalZ.
From Stdlib Require Import Sorting.Permutation Sorting.Sorted.
Import ListNotations.

Local Open Scope string_scope.
Set Warnings "-abstract-large-number".

(* ================================================================== *)
(** ** JavaScript values used by the script *)
(* ================================================================== *)

Module Js.

(** The double-quote character and one-character strings. *)
Definition dquote : ascii := ascii_of_nat 34.
Definition chr (n : nat) : string := String (ascii_of_nat n) EmptyString.
Definition Q : string := String dquote EmptyString.
Definition LF : string := chr 10.

(** [sp n]: the [n] spaces of indentation inside a template literal. *)
Fixpoint sp (n : nat) : string :=
  match n with
  | O => EmptyString
  | S k => String " " (sp k)
  end.

(** [Array.prototype.join('')]. *)
Definition join_empty (l : list string) : string :=
  fold_right append EmptyString l.

(** Number to string for the integers the script prints:
    decimal digits, a leading minus sign for negative numbers. *)
Definition number_to_string (z : Z) : string :=
  NilZero.string_of_int (Z.to_int z).

(** The inverse reading, used to say that a printed number is exact. *)
Definition parse_integer (s : string) : option Z :=
  option_map Z.of_int (NilZero.int_of_string s).

(** *** Objects: own properties and [Object.entries]

    An object produced by [JSON.parse] is the list of its own properties in
    creation order, keys distinct.  [Object.entries] does not enumerate in
    creation order: the keys that are array indices (canonical decimal
    numerals below 2^32 - 1) come first, in ascending numeric order, and the
    other string keys follow in creation order. *)

Definition object (V : Type) : Type := list (string * V).

Definition is_digit (c : ascii) : bool :=
  let n := nat_of_ascii c in (48 <=? n)%nat && (n <=? 57)%nat.

Fixpoint digits_value (acc : N) (s : string) : option N :=
  match s with
  | EmptyString => Some acc
  | String c r =>
      if is_digit c
      then digits_value (acc * 10 + N.of_nat (nat_of_ascii c - 48))%N r
      else None
  end.

(** [array_index k]: [Some i] when [k] is the canonical numeral of an array
    index [i], i.e. digits only, no leading zero unless the numeral is 0
    itself, and [i <= 2^32 - 2]. *)
Definition array_index (k : string) : option N :=
  match k with
  | EmptyString => None
  | String c r =>
      if (Ascii.eqb c "0" && negb (String.eqb r EmptyString))%bool then None
      else match digits_value 0%N k with
           | Some i => if (i <=? 4294967294)%N then Some i else None
           | None => None
           end
  end.

Section Objects.
Context {V : Type}.

(** [CreateDataProperty]: a key already present keeps its place and takes
    the new value; a new key is added last. *)
Fixpoint set_property (k : string) (v : V) (o : object V) : object V :=
  match o with
  | [] => [(k, v)]
  | (k', v') :: r =>
      if String.eqb k k' then (k, v) :: r else (k', v') :: set_property k v r
  end.

(** [JSON.parse] of an object literal whose members are [ms], in the order
    of the response text. *)
Definition json_parse_object (ms : list (string * V)) : object V :=
  fold_left (fun o m => set_property (fst m) (snd m) o) ms [].

(** Insertion of an indexed property into a list sorted by index. *)
Fixpoint insert_by_index (i : N) (e : string * V)
         (l : list (N * (string * V))) : list (N * (string * V)) :=
  match l with
  | [] => [(i, e)]
  | (j, e') :: r =>
      if (i <? j)%N then (i, e) :: l else (j, e') :: insert_by_index i e r
  end.

Fixpoint index_properties (o : object V) : list (N * (string * V)) :=
  match o with
  | [] => []
  | (k, v) :: r =>
      match array_index k with
      | Some i => insert_by_index i (k, v) (index_properties r)
      | None => index_properties r
      end
  end.

Definition named_properties (o : object V) : object V :=
  filter (fun e => match array_index (fst e) with
                   | Some _ => false
                   | None => true
                   end) o.

(** [Object.entries(o)]. *)
Definition entries (o : object V) : list (string * V) :=
  map snd (index_properties o) ++ named_properties o.
End Objects.

(** *** [encodeURIComponent]

    Bytes of the unreserved set [A-Z a-z 0-9 - _ . ! ~ * ' ( )] are kept;
    every other byte of the UTF-8 encoding becomes [%XX], upper-case hex. *)

Definition is_alpha (c : ascii) : bool :=
  let n := nat_of_ascii c in
  ((65 <=? n)%nat && (n <=? 90)%nat) || ((97 <=? n)%nat && (n <=? 122)%nat).

Definition uri_unreserved (c : ascii) : bool :=
  is_alpha c || is_digit c ||
  existsb (Ascii.eqb c) ["-"; "_"; "."; "!"; "~"; "*"; "'"; "("; ")"]%char.

Definition hex_digit (n : nat) : ascii :=
  if (n <? 10)%nat then ascii_of_nat (48 + n) else ascii_of_nat (55 + n).

Definition percent_byte (c : ascii) : string :=
  let n := nat_of_ascii c in
  String "%" (String (hex_digit (n / 16)) (String (hex_digit (n mod 16)) EmptyString)).

Fixpoint encodeURIComponent (s : string) : string :=
  match s with
  | EmptyString => EmptyString
  | String c r =>
      if uri_unreserved c then String c (encodeURIComponent r)
      else percent_byte c ++ encodeURIComponent r
  end.

(** Percent-decoding, the reading the server applies to a path segment or
    to a query value: [%XX] is one byte, any other byte is itself;
    [None] on a stray [%]. *)
Definition hex_value (c : ascii) : option nat :=
  let n := nat_of_ascii c in
  if is_digit c then Some (n - 48)
  else if ((65 <=? n)%nat && (n <=? 70)%nat) then Some (n - 55)
  else if ((97 <=? n)%nat && (n <=? 102)%nat) then Some (n - 87)
  else None.

Fixpoint percent_decode (s : string) : option string :=
  match s with
  | EmptyString => Some EmptyString
  | String c r =>
      if Ascii.eqb c "%" then
        match r with
        | String h (String l r') =>
            match hex_value h, hex_value l, percent_decode r' with
            | Some a, Some b, Some d =>
                Some (String (ascii_of_nat (16 * a + b)) d)
            | _, _, _ => None
            end
        | _ => None
        end
      else option_map (String c) (percent_decode r)
  end.


(** *** Numbers are doubles

    An integer is a JavaScript number when it is a double.  [to_double z] is
    the double nearest to the integer [z] (53 bits of mantissa, ties to the
    even mantissa), [None] when that is an infinity.  Every integer of
    magnitude up to 2^53 is a double. *)
Definition to_double (z : Z) : option Z :=
  let n := Z.abs z in
  if (n <? 2 ^ 53)%Z then Some z
  else
    let e := (Z.log2 n - 52)%Z in
    let q := Z.shiftr n e in
    let r := (n - Z.shiftl q e)%Z in
    let half := Z.shiftl 1 (e - 1) in
    let q' := if ((half <? r)%Z || ((r =? half)%Z && Z.odd q))%bool
              then (q + 1)%Z else q in
    let m := Z.shiftl q' e in
    if (m <? 2 ^ 1024)%Z then Some (Z.sgn z * m)%Z else None.

(** [x - y] on two doubles that hold integers: the exact difference,
    rounded. *)
Definition double_subtract (x y : Z) : option Z := to_double (x - y).

(** Number to string on a double that holds an integer: plain decimal
    digits below 10^21; from 10^21 on JavaScript prints an exponent, which
    is not modelled ([None]). *)
Definition double_to_string (v : Z) : option string :=
  if (Z.abs v <? 10 ^ 21)%Z then Some (number_to_string v) else None.

(** [Number.isSafeInteger]. *)
Definition safe_integer (z : Z) : Prop :=
  (- (2 ^ 53 - 1) <= z <= 2 ^ 53 - 1)%Z.

End Js.

(* ================================================================== *)
(** ** The browser side of [innerHTML]: start tags and attributes *)
(* ================================================================== *)

(** The script builds markup by string interpolation and hands it to the
    HTML parser ([innerHTML = ...]); later it reads attributes back with
    [getAttribute] and tests [classList.contains].  This module models the
    tag states of the HTML tokenizer, one transition per input byte, and
    collects the start tags with their attributes.

    The model is partial on purpose.  It answers [None] (mode [Unsupported])
    where the real parser does something that is not modelled: comments and
    declarations ([<!], [<?]), character references inside attribute values
    ([&]), NUL, tags other than those of the templates of the script (the
    raw-text elements, tables, selects and foreign content change how the
    rest is read), and a [strong] start tag with attributes (the tree
    builder may clone a formatting element).  On every other input each
    start tag yields exactly one element carrying the attributes of the
    tag.  Elements that the tree builder adds for an end tag without its
    start tag (an empty [p] for a stray [</p>]) are not listed; they have
    no attribute, and no markup whose values are free of [<] has such an
    end tag. *)

Module Html.
Import Js.

Record element : Type := mkElement {
  tag : string;
  attrs : list (string * string)
}.

Inductive mode : Type :=
| Data | TagOpen | EndTagOpen | TagName
| BeforeAttrName | AttrName | AfterAttrName | BeforeAttrValue
| AttrValueDQ | AttrValueSQ | AttrValueUnq | AfterAttrValueQ
| SelfClosing | Unsupported.

Record tstate : Type := mkT {
  st_mode : mode;
  st_end : bool;                         (* the current tag is an end tag *)
  st_tag : string;                       (* its name so far *)
  st_attrs : list (string * string);     (* its finished attributes *)
  st_cur : option (string * string);     (* the attribute being read *)
  st_out : list element                  (* start tags emitted so far *)
}.

Definition data_state (out : list element) : tstate :=
  mkT Data false EmptyString [] None out.

Definition unsupported (st : tstate) : tstate :=
  mkT Unsupported (st_end st) (st_tag st) (st_attrs st) (st_cur st) (st_out st).

Definition with_mode (m : mode) (st : tstate) : tstate :=
  mkT m (st_end st) (st_tag st) (st_attrs st) (st_cur st) (st_out st).

Definition is_space (c : ascii) : bool :=
  existsb (Nat.eqb (nat_of_ascii c)) [9; 10; 12; 13; 32]%nat.

Definition is_nul (c : ascii) : bool := Nat.eqb (nat_of_ascii c) 0.
Definition is_cr (c : ascii) : bool := Nat.eqb (nat_of_ascii c) 13.

Definition to_lower (c : ascii) : ascii :=
  let n := nat_of_ascii c in
  if ((65 <=? n)%nat && (n <=? 90)%nat)%bool then ascii_of_nat (n + 32) else c.

Definition snoc (s : string) (c : ascii) : string := s ++ String c EmptyString.

(** The tags of the templates of the script. *)
Definition known_tags : list string :=
  ["h4"; "p"; "strong"; "div"; "h5"; "ul"; "li"; "span"; "button"].

Definition known_tag (t : string) : bool := existsb (String.eqb t) known_tags.

(** An attribute whose name is already on the tag is dropped. *)
Definition commit (cur : option (string * string)) (l : list (string * string))
  : list (string * string) :=
  match cur with
  | None => l
  | Some (n, v) => if existsb (fun a => String.eqb n (fst a)) l then l else l ++ [(n, v)]
  end.

(** End of a tag ([>]): a start tag becomes an element. *)
Definition emit (st : tstate) : tstate :=
  let attrs := commit (st_cur st) (st_attrs st) in
  if negb (known_tag (st_tag st)) then unsupported st
  else if st_end st then data_state (st_out st)
  else if (String.eqb (st_tag st) "strong" && negb (Nat.eqb (List.length attrs) 0))%bool
       then unsupported st
  else data_state (st_out st ++ [mkElement (st_tag st) attrs]).

Definition start_attr (n : string) (st : tstate) : tstate :=
  mkT AttrName (st_end st) (st_tag st) (commit (st_cur st) (st_attrs st))
      (Some (n, EmptyString)) (st_out st).

Definition name_char (c : ascii) (st : tstate) : tstate :=
  if is_nul c then unsupported st
  else match st_cur st with
       | Some (n, v) =>
           mkT AttrName (st_end st) (st_tag st) (st_attrs st)
               (Some (snoc n (to_lower c), v)) (st_out st)
       | None => unsupported st
       end.

Definition value_char (c : ascii) (st : tstate) : tstate :=
  match st_cur st with
  | Some (n, v) =>
      mkT (st_mode st) (st_end st) (st_tag st) (st_attrs st)
          (Some (n, snoc v c)) (st_out st)
  | None => unsupported st
  end.

Definition on_data (st : tstate) (c : ascii) : tstate :=
  if Ascii.eqb c "<" then with_mode TagOpen st else st.

Definition on_tag_name (st : tstate) (c : ascii) : tstate :=
  if is_space c then with_mode BeforeAttrName st
  else if Ascii.eqb c "/" then with_mode SelfClosing st
  else if Ascii.eqb c ">" then emit st
  else if is_nul c then unsupported st
  else mkT TagName (st_end st) (snoc (st_tag st) (to_lower c)) (st_attrs st)
           (st_cur st) (st_out st).

Definition on_tag_open (st : tstate) (c : ascii) : tstate :=
  if Ascii.eqb c "/" then with_mode EndTagOpen st
  else if is_alpha c
       then on_tag_name (mkT TagName false EmptyString [] None (st_out st)) c
  else if (Ascii.eqb c "!" || Ascii.eqb c "?")%bool then unsupported st
  else on_data (with_mode Data st) c.

Definition on_end_tag_open (st : tstate) (c : ascii) : tstate :=
  if is_alpha c
  then on_tag_name (mkT TagName true EmptyString [] None (st_out st)) c
  else if Ascii.eqb c ">" then with_mode Data st
  else unsupported st.

Definition on_after_attr_name (st : tstate) (c : ascii) : tstate :=
  if is_space c then with_mode AfterAttrName st
  else if Ascii.eqb c "/" then with_mode SelfClosing st
  else if Ascii.eqb c "=" then with_mode BeforeAttrValue st
  else if Ascii.eqb c ">" then emit st
  else name_char c (start_attr EmptyString st).

Definition on_attr_name (st : tstate) (c : ascii) : tstate :=
  if (is_space c || Ascii.eqb c "/" || Ascii.eqb c ">")%bool
  then on_after_attr_name st c
  else if Ascii.eqb c "=" then with_mode BeforeAttrValue st
  else name_char c st.

Definition on_before_attr_name (st : tstate) (c : ascii) : tstate :=
  if is_space c then with_mode BeforeAttrName st
  else if (Ascii.eqb c "/" || Ascii.eqb c ">")%bool then on_after_attr_name st c
  else if Ascii.eqb c "=" then start_attr "=" st
  else on_attr_name (start_attr EmptyString st) c.

Definition on_value_unquoted (st : tstate) (c : ascii) : tstate :=
  if is_space c then with_mode BeforeAttrName st
  else if Ascii.eqb c ">" then emit st
  else if (Ascii.eqb c "&" || is_nul c)%bool then unsupported st
  else value_char c (with_mode AttrValueUnq st).

Definition on_before_attr_value (st : tstate) (c : ascii) : tstate :=
  if is_space c then with_mode BeforeAttrValue st
  else if Ascii.eqb c dquote then with_mode AttrValueDQ st
  else if Ascii.eqb c "'" then with_mode AttrValueSQ st
  else if Ascii.eqb c ">" then emit st
  else on_value_unquoted st c.

Definition on_value_quoted (quote : ascii) (st : tstate) (c : ascii) : tstate :=
  if Ascii.eqb c quote then with_mode AfterAttrValueQ st
  else if (Ascii.eqb c "&" || is_nul c || is_cr c)%bool then unsupported st
  else value_char c st.

Definition on_after_value_quoted (st : tstate) (c : ascii) : tstate :=
  if is_space c then with_mode BeforeAttrName st
  else if Ascii.eqb c "/" then with_mode SelfClosing st
  else if Ascii.eqb c ">" then emit st
  else on_before_attr_name st c.

Definition on_self_closing (st : tstate) (c : ascii) : tstate :=
  if Ascii.eqb c ">" then emit st else on_before_attr_name st c.

Definition step (st : tstate) (c : ascii) : tstate :=
  match st_mode st with
  | Data => on_data st c
  | TagOpen => on_tag_open st c
  | EndTagOpen => on_end_tag_open st c
  | TagName => on_tag_name st c
  | BeforeAttrName => on_before_attr_name st c
  | AttrName => on_attr_name st c
  | AfterAttrName => on_after_attr_name st c
  | BeforeAttrValue => on_before_attr_value st c
  | AttrValueDQ => on_value_quoted dquote st c
  | AttrValueSQ => on_value_quoted "'" st c
  | AttrValueUnq => on_value_unquoted st c
  | AfterAttrValueQ => on_after_value_quoted st c
  | SelfClosing => on_self_closing st c
  | Unsupported => st
  end.

Fixpoint run (s : string) (st : tstate) : tstate :=
  match s with
  | EmptyString => st
  | String c r => run r (step st c)
  end.

(** The elements of a markup string; a tag cut by the end of the input is
    dropped. *)
Definition elements (markup : string) : option (list element) :=
  let st := run markup (data_state []) in
  match st_mode st with
  | Unsupported => None
  | _ => Some (st_out st)
  end.

(** [el.getAttribute(name)]. *)
Definition getAttribute (name : string) (e : element) : option string :=
  option_map snd (find (fun a => String.eqb name (fst a)) (attrs e)).

(** The tokens of a [class] attribute (split on ASCII whitespace). *)
Fixpoint class_tokens (cur : string) (s : string) : list string :=
  match s with
  | EmptyString => if String.eqb cur EmptyString then [] else [cur]
  | String c r =>
      if is_space c
      then (if String.eqb cur EmptyString then [] else [cur]) ++ class_tokens EmptyString r
      else class_tokens (snoc cur c) r
  end.

(** [el.classList.contains(cls)]. *)
Definition classList_contains (cls : string) (e : element) : bool :=
  match getAttribute "class" e with
  | Some v => existsb (String.eqb cls) (class_tokens EmptyString v)
  | None => false
  end.

(** Values that the tokenizer reads as themselves.  In text a value is
    inert when it has no [<]; inside a double-quoted attribute value when it
    has no double quote, no [&], no NUL and no carriage return. *)
Fixpoint string_forall (p : ascii -> bool) (s : string) : bool :=
  match s with
  | EmptyString => true
  | String c r => p c && string_forall p r
  end.

Definition text_inert (s : string) : bool :=
  string_forall (fun c => negb (Ascii.eqb c "<")) s.

Definition attr_inert (s : string) : bool :=
  string_forall
    (fun c => negb (Ascii.eqb c dquote || Ascii.eqb c "&" || is_nul c || is_cr c)) s.

Definition html_inert (s : string) : bool := text_inert s && attr_inert s.

(** The output of the tokenizer after [l] has been emitted, one element at
    a time. *)
Definition snoc_all (out l : list element) : list element :=
  fold_left (fun o e => (o ++ [e])%list) l out.

End Html.

(* ================================================================== *)
(** ** The script *)
(* ================================================================== *)

Module App.
Import Js Html.

(** *** The catalog read from [GET /activities] *)

(** One activity, as the endpoint sends it: every entry has the four
    fields. *)
Record details : Type := mkDetails {
  description : string;
  schedule : string;
  max_participants : Z;
  participants : list string
}.

(** Line 21: [details.max_participants - details.participants.length]. *)
Definition spotsLeft (d : details) : Z :=
  max_participants d - Z.of_nat (List.length (participants d)).

(** *** The markup templates (lines 24 to 57) *)

(** The removal control of one participant (line 30). *)
Definition removal_control (name participant : string) : string :=
  "<button class=" ++ Q ++ "delete-participant-btn" ++ Q ++
  " data-activity=" ++ Q ++ name ++ Q ++
  " data-email=" ++ Q ++ participant ++ Q ++
  " title=" ++ Q ++ "Remove participant" ++ Q ++ "></button>".

(** The template literal mapped over the participants (lines 27 to 32). *)
Definition participant_item (name participant : string) : string :=
  LF ++ sp 14 ++ "<li>" ++
  LF ++ sp 16 ++ "<span class=" ++ Q ++ "participant-email" ++ Q ++ ">"
     ++ participant ++ "</span>" ++
  LF ++ sp 16 ++ removal_control name participant ++
  LF ++ sp 14 ++ "</li>" ++
  LF ++ sp 12.

(** Lines 26 to 33: [.map(...).join('')]. *)
Definition participantsList (name : string) (d : details) : string :=
  join_empty (map (participant_item name) (participants d)).

(** The block of an activity without participants (lines 43 to 48). *)
Definition no_participants_block : string :=
  LF ++ sp 12 ++ "<div class=" ++ Q ++ "activity-participants" ++ Q ++ ">" ++
  LF ++ sp 14 ++ "<h5>Participants</h5>" ++
  LF ++ sp 14 ++ "<div class=" ++ Q ++ "no-participants" ++ Q ++ ">"
     ++ "No participants yet</div>" ++
  LF ++ sp 12 ++ "</div>" ++
  LF ++ sp 10.

(** Lines 24 to 49. *)
Definition participantsHTML (name : string) (d : details) : string :=
  if (0 <? List.length (participants d))%nat then
    LF ++ sp 12 ++ "<div class=" ++ Q ++ "activity-participants" ++ Q ++ ">" ++
    LF ++ sp 14 ++ "<h5>Participants</h5>" ++
    LF ++ sp 14 ++ "<ul class=" ++ Q ++ "participants-list" ++ Q ++ ">" ++
    LF ++ sp 16 ++ participantsList name d ++
    LF ++ sp 14 ++ "</ul>" ++
    LF ++ sp 12 ++ "</div>" ++
    LF ++ sp 10
  else no_participants_block.

(** The availability paragraph (line 55). *)
Definition availability_line (d : details) : string :=
  "<p><strong>Availability:</strong> " ++ number_to_string (spotsLeft d)
  ++ " spots left</p>".

(** Lines 51 to 57: the markup assigned to [activityCard.innerHTML]. *)
Definition card_innerHTML (name : string) (d : details) : string :=
  LF ++ sp 10 ++ "<h4>" ++ name ++ "</h4>" ++
  LF ++ sp 10 ++ "<p>" ++ description d ++ "</p>" ++
  LF ++ sp 10 ++ "<p><strong>Schedule:</strong> " ++ schedule d ++ "</p>" ++
  LF ++ sp 10 ++ availability_line d ++
  LF ++ sp 10 ++ participantsHTML name d ++
  LF ++ sp 8.

(** The removal controls of a piece of markup, as the delegated click
    listener sees them (lines 75 to 77): the elements whose class list has
    [delete-participant-btn], each with what [getAttribute] reads from
    [data-activity] and [data-email]. *)
Definition is_removal_control (e : element) : bool :=
  classList_contains "delete-participant-btn" e.

Definition control_data (e : element) : option string * option string :=
  (getAttribute "data-activity" e, getAttribute "data-email" e).

Definition removal_controls (markup : string)
  : option (list (option string * option string)) :=
  option_map (fun es => map control_data (filter is_removal_control es))
             (elements markup).

(** The elements that show the no-participants placeholder. *)
Definition placeholders (markup : string) : option (list element) :=
  option_map (filter (classList_contains "no-participants")) (elements markup).

(** *** The page *)

(** A child of [#activities-list]: markup assigned through [innerHTML], or
    a card built with [createElement] and appended. *)
Inductive node : Type :=
| Markup (html : string)
| Card (className : string) (innerHTML : string).

(** An [<option>] of the select [#activity]. *)
Record select_option : Type := mkOption {
  value : string;
  textContent : string
}.

(** The box [#message].  [text] is the value last assigned to
    [textContent]; [None] stands for [undefined] (a field that the body of
    the answer does not have), which the browser shows as no text. *)
Record message_box : Type := mkMessage {
  text : option string;
  classes : list string
}.

(** The fields of [#signup-form]. *)
Record form : Type := mkForm {
  email : string;
  activity : string
}.

Inductive method : Type := GET | POST | DELETE.

Record request : Type := mkRequest {
  req_method : method;
  req_url : string
}.

(** The state the script acts on.  [timers] holds the due time of every
    pending [setTimeout] callback; all of them run
    [messageDiv.classList.add("hidden")].  [now] is the clock, in
    milliseconds.  [formDefaults] is what [signupForm.reset()] restores: the
    values of the page as loaded (empty fields). *)
Record World : Type := mkWorld {
  activitiesList : list node;
  activitySelect : list select_option;
  messageDiv : message_box;
  signupForm : form;
  formDefaults : form;
  requests : list request;
  timers : list nat;
  now : nat;
  confirms : list string;
  console : list string
}.

Definition action : Type := World -> World.

Definition seq (f g : action) : action := fun w => g (f w).
Notation "f ;; g" := (seq f g) (at level 61, left associativity).

Definition skip : action := fun w => w.

Definition set_activitiesList (l : list node) : action := fun w =>
  mkWorld l (activitySelect w) (messageDiv w) (signupForm w) (formDefaults w)
          (requests w) (timers w) (now w) (confirms w) (console w).

Definition set_activitySelect (l : list select_option) : action := fun w =>
  mkWorld (activitiesList w) l (messageDiv w) (signupForm w) (formDefaults w)
          (requests w) (timers w) (now w) (confirms w) (console w).

Definition set_messageDiv (m : message_box) : action := fun w =>
  mkWorld (activitiesList w) (activitySelect w) m (signupForm w) (formDefaults w)
          (requests w) (timers w) (now w) (confirms w) (console w).

Definition set_signupForm (f : form) : action := fun w =>
  mkWorld (activitiesList w) (activitySelect w) (messageDiv w) f (formDefaults w)
          (requests w) (timers w) (now w) (confirms w) (console w).

Definition set_requests (l : list request) : action := fun w =>
  mkWorld (activitiesList w) (activitySelect w) (messageDiv w) (signupForm w)
          (formDefaults w) l (timers w) (now w) (confirms w) (console w).

Definition set_timers (l : list nat) (t : nat) : action := fun w =>
  mkWorld (activitiesList w) (activitySelect w) (messageDiv w) (signupForm w)
          (formDefaults w) (requests w) l t (confirms w) (console w).

Definition set_confirms (l : list string) : action := fun w =>
  mkWorld (activitiesList w) (activitySelect w) (messageDiv w) (signupForm w)
          (formDefaults w) (requests w) (timers w) (now w) l (console w).

(** [console.error(label, error)]: the label is recorded. *)
Definition console_error (label : string) : action := fun w =>
  mkWorld (activitiesList w) (activitySelect w) (messageDiv w) (signupForm w)
          (formDefaults w) (requests w) (timers w) (now w) (confirms w)
          (console w ++ [label]).

(** [activitiesList.innerHTML = html]: the children are replaced. *)
Definition activitiesList_set_innerHTML (html : string) : action :=
  set_activitiesList (if String.eqb html EmptyString then [] else [Markup html]).

Definition activitiesList_appendChild (n : node) : action := fun w =>
  set_activitiesList (activitiesList w ++ [n]) w.

Definition activitySelect_appendChild (o : select_option) : action := fun w =>
  set_activitySelect (activitySelect w ++ [o]) w.

(** [messageDiv.textContent = v]. *)
Definition messageDiv_set_textContent (v : option string) : action := fun w =>
  set_messageDiv (mkMessage v (classes (messageDiv w))) w.

(** [messageDiv.className = c], with [c] a single class name. *)
Definition messageDiv_set_className (c : string) : action := fun w =>
  set_messageDiv (mkMessage (text (messageDiv w)) [c]) w.

Definition messageDiv_classList_remove (c : string) : action := fun w =>
  set_messageDiv
    (mkMessage (text (messageDiv w))
               (filter (fun x => negb (String.eqb x c)) (classes (messageDiv w)))) w.

Definition messageDiv_classList_add (c : string) : action := fun w =>
  set_messageDiv
    (mkMessage (text (messageDiv w))
               (if existsb (String.eqb c) (classes (messageDiv w))
                then classes (messageDiv w)
                else classes (messageDiv w) ++ [c])) w.

(** The box is hidden when its class list has [hidden]. *)
Definition hidden (w : World) : bool :=
  existsb (String.eqb "hidden") (classes (messageDiv w)).

Definition signupForm_reset : action := fun w =>
  set_signupForm (formDefaults w) w.

(** [fetch(url, {method})]: the request leaves. *)
Definition fetch (m : method) (url : string) : action := fun w =>
  set_requests (requests w ++ [mkRequest m url]) w.

(** [setTimeout(() => messageDiv.classList.add("hidden"), delay)]. *)
Definition setTimeout_hide (delay : nat) : action := fun w =>
  set_timers (timers w ++ [now w + delay]) (now w) w.

(** [d] milliseconds pass with no other event: the callbacks that are due
    run, the others stay pending. *)
Definition elapse (d : nat) : action := fun w =>
  let t := now w + d in
  let due := filter (fun x => Nat.leb x t) (timers w) in
  let pending := filter (fun x => negb (Nat.leb x t)) (timers w) in
  (match due with
   | [] => skip
   | _ :: _ => messageDiv_classList_add "hidden"
   end ;; set_timers pending t) w.

(** What comes back from a request: [fetch] rejects, [response.json()]
    rejects, or a body is read from a response whose [ok] flag is given. *)
Inductive outcome (A : Type) : Type :=
| NetworkError
| BodyParseError (ok : bool)
| Responded (ok : bool) (body : A).
Arguments NetworkError {A}.
Arguments BodyParseError {A} ok.
Arguments Responded {A} ok body.

(** The body of the answer to a signup or to an unregistration; a field is
    [None] when the object does not have it. *)
Record result : Type := mkResult {
  message : option string;
  detail : option string
}.

(** [x || fallback] on a string that may be missing: the empty string is
    falsy as well. *)
Definition or_else (x : option string) (fallback : string) : string :=
  match x with
  | Some s => if String.eqb s EmptyString then fallback else s
  | None => fallback
  end.

(** *** [fetchActivities] (lines 8 to 71) *)

Definition failure_markup : string :=
  "<p>Failed to load activities. Please try again later.</p>".

(** The callback of [forEach] (lines 17 to 66). *)
Definition render_entry (w : World) (e : string * details) : World :=
  let (name, d) := e in
  (activitiesList_appendChild (Card "activity-card" (card_innerHTML name d)) ;;
   activitySelect_appendChild (mkOption name name)) w.

(** Up to the first [await] (line 10). *)
Definition fetchActivities_call : action := fetch GET "/activities".

(** From the first [await] on.  [members] are the members of the JSON
    object of the body, in the order of the response text; [response.ok] is
    not looked at. *)
Definition fetchActivities_resume (r : outcome (list (string * details))) : action :=
  fun w =>
  match r with
  | Responded _ members =>
      let activities := json_parse_object members in
      fold_left render_entry (entries activities)
                (activitiesList_set_innerHTML EmptyString w)
  | _ =>
      (activitiesList_set_innerHTML failure_markup ;;
       console_error "Error fetching activities:") w
  end.

(** *** [unregisterParticipant] (lines 83 to 131) *)

Definition unregister_url (activityName email : string) : string :=
  "/activities/" ++ encodeURIComponent activityName ++ "/unregister/"
  ++ encodeURIComponent email.

Definition confirm_text (activityName email : string) : string :=
  "Are you sure you want to remove " ++ email ++ " from " ++ activityName ++ "?".

(** Up to the first [await]; [confirmed] is the answer to [confirm]. *)
Definition unregisterParticipant_call (activityName email : string)
           (confirmed : bool) : action := fun w =>
  let w' := set_confirms (confirms w ++ [confirm_text activityName email]) w in
  if confirmed then fetch DELETE (unregister_url activityName email) w' else w'.

Definition unregisterParticipant_resume (r : outcome result) : action :=
  match r with
  | Responded true res =>
      messageDiv_set_textContent (message res) ;;
      messageDiv_set_className "success" ;;
      messageDiv_classList_remove "hidden" ;;
      fetchActivities_call ;;
      setTimeout_hide 3000
  | Responded false res =>
      messageDiv_set_textContent
        (Some (or_else (detail res) "Failed to unregister participant")) ;;
      messageDiv_set_className "error" ;;
      messageDiv_classList_remove "hidden" ;;
      setTimeout_hide 5000
  | _ =>
      console_error "Error unregistering participant:" ;;
      messageDiv_set_textContent
        (Some "Failed to unregister participant. Please try again.") ;;
      messageDiv_set_className "error" ;;
      messageDiv_classList_remove "hidden" ;;
      setTimeout_hide 5000
  end.

(** The delegated click listener (lines 74 to 80).  A missing attribute is
    [null], which the template and [encodeURIComponent] print as [null]. *)
Definition attribute_text (a : option string) : string :=
  match a with
  | Some s => s
  | None => "null"
  end.

Definition activitiesList_click (target : element) (confirmed : bool) : action :=
  if classList_contains "delete-participant-btn" target
  then unregisterParticipant_call
         (attribute_text (getAttribute "data-activity" target))
         (attribute_text (getAttribute "data-email" target)) confirmed
  else skip.

(** *** The submit listener of the form (lines 134 to 173) *)

Definition signup_url (activity email : string) : string :=
  "/activities/" ++ encodeURIComponent activity ++ "/signup?email="
  ++ encodeURIComponent email.

Definition signupForm_submit_call : action := fun w =>
  fetch POST (signup_url (activity (signupForm w)) (email (signupForm w))) w.

Definition signupForm_submit_resume (r : outcome result) : action :=
  match r with
  | Responded ok res =>
      (if ok then
         messageDiv_set_textContent (message res) ;;
         messageDiv_set_className "success" ;;
         signupForm_reset ;;
         fetchActivities_call
       else
         messageDiv_set_textContent (Some (or_else (detail res) "An error occurred")) ;;
         messageDiv_set_className "error") ;;
      messageDiv_classList_remove "hidden" ;;
      setTimeout_hide 5000
  | _ =>
      messageDiv_set_textContent (Some "Failed to sign up. Please try again.") ;;
      messageDiv_set_className "error" ;;
      messageDiv_classList_remove "hidden" ;;
      console_error "Error signing up:"
  end.

(** Line 176: the page is loaded. *)
Definition initialize : action := fetchActivities_call.

(** *** The elements the templates are meant to produce *)

Definition control_element (name participant : string) : element :=
  mkElement "button"
    [("class", "delete-participant-btn"); ("data-activity", name);
     ("data-email", participant); ("title", "Remove participant")].

Definition item_elements (name participant : string) : list element :=
  [mkElement "li" []; mkElement "span" [("class", "participant-email")];
   control_element name participant].

Definition heading_elements : list element :=
  [mkElement "h4" []; mkElement "p" []; mkElement "p" []; mkElement "strong" [];
   mkElement "p" []; mkElement "strong" []].

Definition block_elements (name : string) (ps : list string) : list element :=
  match ps with
  | [] => [mkElement "div" [("class", "activity-participants")];
           mkElement "h5" [];
           mkElement "div" [("class", "no-participants")]]
  | _ :: _ => [mkElement "div" [("class", "activity-participants")];
               mkElement "h5" [];
               mkElement "ul" [("class", "participants-list")]]
              ++ flat_map (item_elements name) ps
  end.

(** The page as it is when the script starts: the list shows the loading
    paragraph, the select has its placeholder option, the message box is
    hidden, the student has typed an address and chosen an activity. *)
Definition example_page : World :=
  mkWorld [Markup "<p>Loading activities...</p>"]
          [mkOption EmptyString "-- Select an activity --"]
          (mkMessage (Some EmptyString) ["hidden"])
          (mkForm "a@b.com" "Chess Club")
          (mkForm EmptyString EmptyString)
          [] [] 0 [] [].

Definition chess_club : details := mkDetails "d" "s" 2 [].

Definition card_of (e : string * details) : node :=
  Card "activity-card" (card_innerHTML (fst e) (snd e)).

Definition option_of (e : string * details) : select_option :=
  mkOption (fst e) (fst e).

(** *** The remaining places, as the browser computes them

    [JSON.parse] reads [max_participants] into a double, line 21 subtracts
    the length of the array in doubles and the template prints the
    result. *)
Definition computed_spotsLeft (d : details) : option Z :=
  match to_double (max_participants d) with
  | Some m => double_subtract m (Z.of_nat (List.length (participants d)))
  | None => None
  end.

Definition computed_availability_text (d : details) : option string :=
  match computed_spotsLeft d with
  | Some v => double_to_string v
  | None => None
  end.

(** The entries on which the computation in doubles is the computation in
    [Z]: [max_participants] and the difference are safe integers, and the
    array has a length an array can have. *)
Definition within_exact_range (d : details) : Prop :=
  safe_integer (max_participants d)
  /\ (Z.of_nat (List.length (participants d)) < 2 ^ 32)%Z
  /\ safe_integer (spotsLeft d).

(** *** The listeners, as one handler of events

    The script registers three listeners (page loaded, click in the list,
    submit of the form) and resumes its [async] functions when an answer
    arrives.  An event is one run of a listener or of a continuation; the
    passing of time runs the timers that are due. *)
Inductive event : Type :=
| PageLoaded
| CatalogArrived (r : outcome (list (string * details)))
| FormSubmitted
| SignupAnswered (r : outcome result)
| ListClicked (target : element) (confirmed : bool)
| UnregisterAnswered (r : outcome result)
| TimePassed (d : nat).

Definition handle (e : event) : action :=
  match e with
  | PageLoaded => initialize
  | CatalogArrived r => fetchActivities_resume r
  | FormSubmitted => signupForm_submit_call
  | SignupAnswered r => signupForm_submit_resume r
  | ListClicked target confirmed => activitiesList_click target confirmed
  | UnregisterAnswered r => unregisterParticipant_resume r
  | TimePassed d => elapse d
  end.

Definition run_events (evs : list event) (w : World) : World :=
  fold_left (fun w e => handle e w) evs w.

(** A 2xx answer with a body. *)
Definition accepted (r : outcome result) : bool :=
  match r with
  | Responded true _ => true
  | _ => false
  end.

Definition is_catalog_arrival (e : event) : bool :=
  match e with
  | CatalogArrived _ => true
  | _ => false
  end.

Definition is_answer (e : event) : bool :=
  match e with
  | SignupAnswered _ | UnregisterAnswered _ => true
  | _ => false
  end.

(** The events in which [fetchActivities] is called: the load of the page
    and the accepted signups and unregistrations. *)
Definition starts_read (e : event) : bool :=
  match e with
  | PageLoaded => true
  | SignupAnswered r | UnregisterAnswered r => accepted r
  | _ => false
  end.

(** The event in which [signupForm.reset()] runs: an accepted signup. *)
Definition resets_form (e : event) : bool :=
  match e with
  | SignupAnswered r => accepted r
  | _ => false
  end.

Definition is_catalog_request (r : request) : bool :=
  match req_method r with
  | GET => String.eqb (req_url r) "/activities"
  | _ => false
  end.

Definition catalog_requests (w : World) : nat :=
  List.length (filter is_catalog_request (requests w)).

(** The message box shows one severity, [success] or [error], and is
    either visible or hidden. *)
Definition shows_severity (w : World) : Prop :=
  exists c, (c = "success" \/ c = "error")
            /\ (classes (messageDiv w) = [c]
                \/ classes (messageDiv w) = [c; "hidden"]).

End App.

(* ================================================================== *)
(** ** Lemmas on the tokenizer *)
(* ================================================================== *)

Module HtmlFacts.
Import Js Html.

Lemma run_app (a b : string) (st : tstate) :
  run (a ++ b) st = run b (run a st).
Proof.
  revert st; induction a as [|c a IH]; intros st; simpl; [reflexivity|apply IH].
Qed.

Lemma append_assoc (a b c : string) : (a ++ b) ++ c = a ++ (b ++ c).
Proof. induction a as [|x a IH]; simpl; [reflexivity|now rewrite IH]. Qed.

Lemma string_forall_app (p : ascii -> bool) (a b : string) :
  string_forall p (a ++ b) = string_forall p a && string_forall p b.
Proof.
  induction a as [|c a IH]; simpl; [reflexivity|].
  rewrite IH. apply andb_assoc.
Qed.

(** Text without [<] leaves the data state as it is. *)
Lemma run_text (v : string) e t a c o :
  text_inert v = true ->
  run v (mkT Data e t a c o) = mkT Data e t a c o.
Proof.
  induction v as [|x v IH]; simpl; intros H; [reflexivity|].
  apply andb_true_iff in H as [Hx Hv].
  unfold step, on_data; simpl.
  apply negb_true_iff in Hx. rewrite Hx. apply IH, Hv.
Qed.

Lemma append_snoc (x : string) (c : ascii) (v : string) :
  snoc x c ++ v = x ++ String c v.
Proof.
  unfold snoc. induction x as [|y x IH]; simpl; [reflexivity|].
  now rewrite IH.
Qed.

(** An inert value is appended as it is to a double-quoted attribute
    value. *)
Lemma run_value (v : string) e t a n x o :
  attr_inert v = true ->
  run v (mkT AttrValueDQ e t a (Some (n, x)) o)
  = mkT AttrValueDQ e t a (Some (n, x ++ v)) o.
Proof.
  revert x; induction v as [|c v IH]; simpl; intros x H.
  - f_equal. f_equal. f_equal. clear. induction x; simpl; congruence.
  - apply andb_true_iff in H as [Hc Hv].
    apply negb_true_iff in Hc.
    apply orb_false_iff in Hc as [Hc Hcr].
    apply orb_false_iff in Hc as [Hc Hnul].
    apply orb_false_iff in Hc as [Hq Hamp].
    unfold step, on_value_quoted; simpl.
    rewrite Hq, Hamp, Hnul, Hcr; simpl.
    unfold value_char; simpl.
    rewrite IH by exact Hv. now rewrite append_snoc.
Qed.

Lemma snoc_all_app (out l : list element) : snoc_all out l = (out ++ l)%list.
Proof.
  unfold snoc_all. revert out; induction l as [|x l IH]; intros out; simpl.
  - now rewrite app_nil_r.
  - rewrite IH, <- app_assoc. reflexivity.
Qed.

Lemma inert_text (s : string) : html_inert s = true -> text_inert s = true.
Proof. unfold html_inert. intros H. apply andb_true_iff in H. tauto. Qed.

Lemma inert_attr (s : string) : html_inert s = true -> attr_inert s = true.
Proof. unfold html_inert. intros H. apply andb_true_iff in H. tauto. Qed.

Lemma uint_text_inert (u : Decimal.uint) :
  text_inert (NilEmpty.string_of_uint u) = true.
Proof. induction u; simpl; auto. Qed.

Lemma number_text_inert (z : Z) : text_inert (number_to_string z) = true.
Proof.
  unfold number_to_string, NilZero.string_of_int, NilZero.string_of_uint.
  destruct (Z.to_int z) as [u|u]; destruct u; simpl;
    try reflexivity; apply uint_text_inert.
Qed.

(** One step of symbolic tokenizing: an inert value is skipped or appended
    by the two lemmas above, a literal piece of a template is computed. *)
Ltac run_step :=
  match goal with
  | |- context [run ?L (mkT ?m ?e ?t ?a ?c ?o)] =>
      first
        [ rewrite (run_text L e t a c o) by assumption
        | rewrite (run_value L) by assumption
        | match L with context [?v] => is_var v; fail 1 | _ => idtac end;
          let r := eval vm_compute in (run L (mkT m e t a c o)) in
          let H := fresh in
          assert (H : run L (mkT m e t a c o) = r) by (vm_compute; reflexivity);
          progress (rewrite H); clear H ]
  end.

End HtmlFacts.

(* ================================================================== *)
(** ** Lemmas on numbers, objects and URLs *)
(* ================================================================== *)

Module JsFacts.
Import Js.

(** A printed integer reads back as itself. *)
Lemma number_roundtrip (z : Z) : parse_integer (number_to_string z) = Some z.
Proof.
  unfold parse_integer, number_to_string.
  rewrite NilZero.isi.
  - simpl. now rewrite DecimalZ.of_to.
  - destruct z; simpl; try discriminate.
    intros [= H]. now apply DecimalPos.Unsigned.to_uint_nonnil in H.
  - destruct z; simpl; try discriminate.
    intros [= H]. now apply DecimalPos.Unsigned.to_uint_nonnil in H.
Qed.


Section Objects.
Context {V : Type}.

Lemma set_property_fresh (k : string) (v : V) (o : object V) :
  ~ In k (map fst o) -> set_property k v o = (o ++ [(k, v)])%list.
Proof.
  induction o as [|[k' v'] o IH]; simpl; intros H; [reflexivity|].
  destruct (String.eqb_spec k k') as [->|Hk].
  - exfalso. apply H. now left.
  - rewrite IH; [reflexivity|]. intros Hin. apply H. now right.
Qed.

Lemma fold_set_property_distinct (ms acc : list (string * V)) :
  NoDup (map fst (acc ++ ms)%list) ->
  fold_left (fun o m => set_property (fst m) (snd m) o) ms acc
  = (acc ++ ms)%list.
Proof.
  revert acc; induction ms as [|[k v] ms IH]; intros acc H; simpl.
  - now rewrite app_nil_r.
  - rewrite set_property_fresh.
    + rewrite IH; rewrite <- app_assoc; [reflexivity|exact H].
    + rewrite map_app in H. simpl in H.
      apply NoDup_remove_2 in H. intros Hin. apply H.
      apply in_or_app. now left.
Qed.

(** Distinct member names: the object has the members of the response, in
    the order of the response. *)
Lemma json_parse_distinct (ms : list (string * V)) :
  NoDup (map fst ms) -> json_parse_object ms = ms.
Proof.
  intros H. unfold json_parse_object.
  now rewrite fold_set_property_distinct.
Qed.

Lemma index_properties_named (o : object V) :
  Forall (fun e => array_index (fst e) = None) o -> index_properties o = [].
Proof.
  induction 1 as [|[k v] o Hk Ho IH]; simpl; [reflexivity|].
  simpl in Hk. now rewrite Hk.
Qed.

Lemma named_properties_named (o : object V) :
  Forall (fun e => array_index (fst e) = None) o -> named_properties o = o.
Proof.
  unfold named_properties.
  induction 1 as [|[k v] o Hk Ho IH]; simpl; [reflexivity|].
  simpl in Hk. rewrite Hk. now f_equal.
Qed.

(** No array index among the keys: [Object.entries] follows creation
    order. *)
Lemma entries_named (o : object V) :
  Forall (fun e => array_index (fst e) = None) o -> entries o = o.
Proof.
  intros H. unfold entries.
  now rewrite index_properties_named, named_properties_named.
Qed.

Lemma insert_by_index_length (i : N) (e : string * V) l :
  List.length (insert_by_index i e l) = S (List.length l).
Proof.
  induction l as [|[j e'] l IH]; simpl; [reflexivity|].
  destruct (i <? j)%N; simpl; [reflexivity|now rewrite IH].
Qed.

Lemma insert_by_index_permutation (i : N) (e : string * V) l :
  Permutation (map snd (insert_by_index i e l)) (e :: map snd l).
Proof.
  induction l as [|[j e'] l IH]; simpl; [apply Permutation_refl|].
  destruct (i <? j)%N; simpl; [apply Permutation_refl|].
  eapply perm_trans; [apply perm_skip, IH|apply perm_swap].
Qed.

(** [Object.entries] enumerates every own property exactly once. *)
Lemma entries_permutation (o : object V) : Permutation (entries o) o.
Proof.
  unfold entries, named_properties.
  induction o as [|[k v] o IH]; simpl; [apply Permutation_refl|].
  destruct (array_index k); simpl.
  - eapply perm_trans.
    + apply Permutation_app_tail, insert_by_index_permutation.
    + simpl. apply perm_skip, IH.
  - apply Permutation_sym, Permutation_cons_app, Permutation_sym, IH.
Qed.

Lemma entries_length (o : object V) :
  List.length (entries o) = List.length o.
Proof. apply Permutation_length, entries_permutation. Qed.

Lemma insert_by_index_sorted (i : N) (e : string * V) l :
  Sorted N.le (map fst l) -> Sorted N.le (map fst (insert_by_index i e l)).
Proof.
  induction l as [|[j e'] l IH]; simpl; intros H.
  - repeat constructor.
  - destruct (N.ltb_spec i j) as [Hlt|Hge]; simpl.
    + constructor; [exact H|]. constructor. simpl. lia.
    + inversion H as [|? ? Hs Hh]; subst.
      constructor; [apply IH, Hs|].
      destruct l as [|[j' e''] l]; simpl.
      * constructor. exact Hge.
      * destruct (i <? j')%N; simpl; constructor.
        -- exact Hge.
        -- now inversion Hh.
Qed.

(** The array-index keys are enumerated in ascending numeric order, each
    with its own index. *)
Lemma index_properties_sorted (o : object V) :
  Sorted N.le (map fst (index_properties o)).
Proof.
  induction o as [|[k v] o IH]; simpl; [constructor|].
  destruct (array_index k); [now apply insert_by_index_sorted|exact IH].
Qed.

Lemma insert_by_index_Forall (P : N * (string * V) -> Prop) i e l :
  P (i, e) -> Forall P l -> Forall P (insert_by_index i e l).
Proof.
  intros Hi. induction 1 as [|[j e'] l Hj Hl IH]; simpl.
  - now repeat constructor.
  - destruct (i <? j)%N; repeat constructor; assumption.
Qed.

Lemma index_properties_index (o : object V) :
  Forall (fun ie => array_index (fst (snd ie)) = Some (fst ie))
         (index_properties o).
Proof.
  induction o as [|[k v] o IH]; simpl; [constructor|].
  destruct (array_index k) eqn:E; [|exact IH].
  apply insert_by_index_Forall; [exact E|exact IH].
Qed.
End Objects.

(** A property checked on the 256 bytes holds of every byte. *)
Lemma all_bytes (P : ascii -> bool) :
  forallb P (map ascii_of_nat (seq 0 256)) = true -> forall c, P c = true.
Proof.
  intros H c. rewrite forallb_forall in H. apply H.
  rewrite <- (ascii_nat_embedding c). apply in_map, in_seq.
  pose proof (nat_ascii_bounded c). lia.
Qed.

(** The two hexadecimal digits of an escaped byte read back as the byte. *)
Lemma hex_digits_value (c : ascii) :
  match hex_value (hex_digit (nat_of_ascii c / 16)),
        hex_value (hex_digit (nat_of_ascii c mod 16)) with
  | Some a, Some b => Ascii.eqb (ascii_of_nat (16 * a + b)) c
  | _, _ => false
  end = true.
Proof. revert c. apply all_bytes. vm_compute. reflexivity. Qed.

Lemma unreserved_not_percent (c : ascii) :
  uri_unreserved c = true -> Ascii.eqb c "%" = false.
Proof.
  intros H.
  assert (E : negb (uri_unreserved c && Ascii.eqb c "%") = true).
  { revert c H. intros c _. revert c. apply all_bytes. vm_compute. reflexivity. }
  rewrite H in E. simpl in E. now apply negb_true_iff in E.
Qed.

(** Every byte is encoded into something that decodes to it. *)
Lemma percent_byte_decodes (c : ascii) (r : string) (d : string) :
  percent_decode r = Some d ->
  percent_decode (percent_byte c ++ r) = Some (String c d).
Proof.
  intros Hr. unfold percent_byte.
  cbn [append percent_decode]. rewrite Hr.
  change (Ascii.eqb "%" "%") with true. cbv iota.
  pose proof (hex_digits_value c) as H.
  destruct (hex_value (hex_digit (nat_of_ascii c / 16))) as [a|]; [|discriminate].
  destruct (hex_value (hex_digit (nat_of_ascii c mod 16))) as [b|]; [|discriminate].
  apply Ascii.eqb_eq in H. now rewrite H.
Qed.

Lemma percent_decode_encode (s : string) :
  percent_decode (encodeURIComponent s) = Some s.
Proof.
  induction s as [|c s IH]; simpl; [reflexivity|].
  destruct (uri_unreserved c) eqn:Hc.
  - simpl. rewrite (unreserved_not_percent c Hc), IH. reflexivity.
  - now apply percent_byte_decodes.
Qed.



(** The bounds of the array indices: canonical numerals up to 2^32 - 2. *)
Lemma array_index_bounds :
  array_index "0" = Some 0%N
  /\ array_index "7" = Some 7%N
  /\ array_index "4294967294" = Some 4294967294%N
  /\ array_index "4294967295" = None
  /\ array_index "99999999999" = None
  /\ array_index "07" = None
  /\ array_index "-1" = None
  /\ array_index "1.5" = None
  /\ array_index EmptyString = None.
Proof. repeat split; vm_compute; reflexivity. Qed.

(** A safe integer is a double, and it is printed in plain decimal. *)
Lemma to_double_safe (z : Z) : safe_integer z -> to_double z = Some z.
Proof.
  unfold safe_integer, to_double. intros H.
  change (2 ^ 53)%Z with 9007199254740992%Z in *.
  destruct (Z.ltb_spec (Z.abs z) 9007199254740992); [reflexivity|lia].
Qed.

Lemma double_to_string_safe (z : Z) :
  safe_integer z -> double_to_string z = Some (number_to_string z).
Proof.
  unfold safe_integer, double_to_string. intros H.
  change (2 ^ 53)%Z with 9007199254740992%Z in *.
  change (10 ^ 21)%Z with 1000000000000000000000%Z.
  destruct (Z.ltb_spec (Z.abs z) 1000000000000000000000); [reflexivity|lia].
Qed.

(** Outside the safe integers the doubles round: 2^53 + 2 minus 1 is
    2^53, ties go to the even mantissa, and 10^21 is not printed in plain
    decimal. *)
Lemma doubles_round_beyond_safe_integers :
  double_subtract 9007199254740994 1 = Some 9007199254740992%Z
  /\ to_double 9007199254740993 = Some 9007199254740992%Z
  /\ to_double 9007199254740995 = Some 9007199254740996%Z
  /\ to_double (-9007199254740993) = Some (-9007199254740992)%Z
  /\ double_to_string (10 ^ 21) = None.
Proof. repeat split; vm_compute; reflexivity. Qed.

End JsFacts.

(* ================================================================== *)
(** ** The markup of a card, read back by the browser *)
(* ================================================================== *)

Module MarkupFacts.
Import Js Html App HtmlFacts.

Lemma run_removal_control (name p : string) (out : list element) :
  html_inert name = true -> html_inert p = true ->
  run (removal_control name p) (data_state out)
  = data_state (out ++ [control_element name p])%list.
Proof.
  intros Hn Hp.
  pose proof (inert_attr _ Hp) as Hpa. pose proof (inert_attr _ Hn) as Hna.
  rewrite <- snoc_all_app.
  unfold removal_control, data_state.
  rewrite !run_app. repeat run_step. reflexivity.
Qed.

Lemma run_participant_item (name p : string) (out : list element) :
  html_inert name = true -> html_inert p = true ->
  run (participant_item name p) (data_state out)
  = data_state (out ++ item_elements name p)%list.
Proof.
  intros Hn Hp.
  pose proof (inert_text _ Hp) as Hpt. pose proof (inert_attr _ Hp) as Hpa.
  pose proof (inert_attr _ Hn) as Hna.
  rewrite <- snoc_all_app.
  unfold participant_item, removal_control, data_state.
  rewrite !run_app. repeat run_step. reflexivity.
Qed.

Lemma run_participants (name : string) (ps : list string) (out : list element) :
  html_inert name = true -> Forall (fun p => html_inert p = true) ps ->
  run (join_empty (map (participant_item name) ps)) (data_state out)
  = data_state (out ++ flat_map (item_elements name) ps)%list.
Proof.
  intros Hn Hps. revert out.
  induction Hps as [|p ps Hp Hps IH]; intros out.
  - simpl. now rewrite app_nil_r.
  - change (join_empty (map (participant_item name) (p :: ps)))
      with (participant_item name p ++ join_empty (map (participant_item name) ps)).
    change (flat_map (item_elements name) (p :: ps))
      with (item_elements name p ++ flat_map (item_elements name) ps)%list.
    rewrite run_app, run_participant_item by assumption.
    rewrite IH, <- app_assoc. reflexivity.
Qed.

(** The elements of a card whose values are inert: the six elements of the
    heading lines, then the participants block. *)
Lemma run_card (name : string) (d : details) :
  html_inert name = true ->
  text_inert (description d) = true ->
  text_inert (schedule d) = true ->
  Forall (fun p => html_inert p = true) (participants d) ->
  run (card_innerHTML name d) (data_state [])
  = data_state (heading_elements ++ block_elements name (participants d))%list.
Proof.
  intros Hn Hd Hs Hps.
  pose proof (inert_text _ Hn) as Hnt.
  pose proof (number_text_inert (spotsLeft d)) as Hz.
  unfold card_innerHTML, availability_line, participantsHTML, participantsList.
  destruct (participants d) as [|p ps] eqn:E.
  - change (0 <? List.length (@nil string))%nat with false. cbv iota.
    unfold no_participants_block, data_state.
    rewrite !run_app. repeat run_step. reflexivity.
  - change (0 <? List.length (p :: ps))%nat with true. cbv iota.
    unfold data_state at 1.
    rewrite !run_app. repeat run_step.
    match goal with
    | |- context [run (join_empty ?l) (mkT Data false EmptyString [] None ?o)] =>
        change (run (join_empty l) (mkT Data false EmptyString [] None o))
          with (run (join_empty l) (data_state o))
    end.
    rewrite run_participants by assumption.
    unfold data_state. repeat run_step.
    reflexivity.
Qed.

Lemma elements_card (name : string) (d : details) :
  html_inert name = true ->
  text_inert (description d) = true ->
  text_inert (schedule d) = true ->
  Forall (fun p => html_inert p = true) (participants d) ->
  elements (card_innerHTML name d)
  = Some (heading_elements ++ block_elements name (participants d))%list.
Proof.
  intros Hn Hd Hs Hps. unfold elements.
  now rewrite run_card.
Qed.

(** Among the elements of the items, the removal controls are the buttons,
    one per participant. *)
Lemma controls_of_items (name : string) (ps : list string) :
  map control_data (filter is_removal_control (flat_map (item_elements name) ps))
  = map (fun p => (Some name, Some p)) ps.
Proof.
  induction ps as [|p ps IH]; [reflexivity|].
  change (flat_map (item_elements name) (p :: ps))
    with (item_elements name p ++ flat_map (item_elements name) ps)%list.
  rewrite filter_app, map_app, IH. reflexivity.
Qed.

Lemma placeholders_of_items (name : string) (ps : list string) :
  filter (classList_contains "no-participants") (flat_map (item_elements name) ps)
  = [].
Proof.
  induction ps as [|p ps IH]; [reflexivity|].
  change (flat_map (item_elements name) (p :: ps))
    with (item_elements name p ++ flat_map (item_elements name) ps)%list.
  rewrite filter_app, IH. reflexivity.
Qed.

End MarkupFacts.

(* ================================================================== *)
(** ** Properties of the script *)
(* ================================================================== *)

Module Properties.
Import Js Html App HtmlFacts JsFacts MarkupFacts.

(** *** Rendering the catalog *)

(** The loop of [forEach] appends one card and one option per entry and
    touches nothing else. *)
Lemma render_entries (es : list (string * details)) (w : World) :
  fold_left render_entry es w
  = mkWorld (activitiesList w ++ map card_of es)%list
            (activitySelect w ++ map option_of es)%list
            (messageDiv w) (signupForm w) (formDefaults w)
            (requests w) (timers w) (now w) (confirms w) (console w).
Proof.
  revert w; induction es as [|[name d] es IH]; intros w; simpl.
  - rewrite !app_nil_r. now destruct w.
  - rewrite IH. simpl. rewrite <- !app_assoc. reflexivity.
Qed.

Lemma fetchActivities_resume_ok (ok : bool) (members : list (string * details))
      (w : World) :
  fetchActivities_resume (Responded ok members) w
  = mkWorld (map card_of (entries (json_parse_object members)))
            (activitySelect w
             ++ map option_of (entries (json_parse_object members)))%list
            (messageDiv w) (signupForm w) (formDefaults w)
            (requests w) (timers w) (now w) (confirms w) (console w).
Proof.
  unfold fetchActivities_resume. rewrite render_entries. reflexivity.
Qed.

(** The availability paragraph is a piece of the markup of the card. *)
Lemma card_has_availability_line (name : string) (d : details) :
  exists pre post, card_innerHTML name d = pre ++ availability_line d ++ post.
Proof.
  unfold card_innerHTML.
  exists (LF ++ sp 10 ++ "<h4>" ++ name ++ "</h4>" ++
          LF ++ sp 10 ++ "<p>" ++ description d ++ "</p>" ++
          LF ++ sp 10 ++ "<p><strong>Schedule:</strong> " ++ schedule d ++ "</p>" ++
          LF ++ sp 10).
  exists (LF ++ sp 10 ++ participantsHTML name d ++ LF ++ sp 8).
  rewrite !append_assoc. reflexivity.
Qed.

(** C1, the claim as stated fails: a catalog whose response lists
    ["Chess Club"] before ["7"] is rendered with the card of ["7"] first,
    because [Object.entries] enumerates array-index names before the other
    names. *)
Lemma response_order_counterexample :
  let members := [("Chess Club", chess_club); ("7", chess_club)] in
  activitiesList (fetchActivities_resume (Responded true members) example_page)
  <> map card_of members.
Proof. vm_compute. intros H. discriminate H. Qed.

(** On an entry within the exact range the doubles give the difference
    itself, printed in plain decimal. *)
Lemma computed_spotsLeft_exact (d : details) :
  within_exact_range d ->
  computed_spotsLeft d
  = Some (max_participants d - Z.of_nat (List.length (participants d)))%Z
  /\ computed_availability_text d
     = Some (number_to_string
               (max_participants d - Z.of_nat (List.length (participants d)))).
Proof.
  intros (Hm & _ & Hs).
  unfold computed_availability_text, computed_spotsLeft, double_subtract.
  rewrite (to_double_safe _ Hm).
  fold (spotsLeft d). rewrite (to_double_safe _ Hs).
  split; [reflexivity|]. now apply double_to_string_safe.
Qed.

(** C1, amended.  A successful read renders exactly one card per entry of
    the catalog object, in the order of [Object.entries]: the names that
    are array indices (the decimal numerals, without leading zero, of the
    integers from 0 to 2^32 - 2) first, in ascending numeric order, then
    the other names in response order.  That is the response order whenever
    the names are distinct and none is an array index.  For every entry
    whose [max_participants] and whose difference
    [max_participants - participants.length] are safe integers (magnitude
    at most 2^53 - 1), the subtraction in doubles gives that difference
    exactly, it is printed in plain decimal, and the markup of the card
    carries the availability paragraph with that number (it reads back as
    the same integer), [0] included. *)
Theorem cards_follow_object_entries
        (ok : bool) (members : list (string * details)) (w : World) :
  let o := json_parse_object members in
  let es := entries o in
  let w' := fetchActivities_resume (Responded ok members) w in
  activitiesList w' = map card_of es
  /\ Permutation es o
  /\ List.length (activitiesList w') = List.length o
  /\ (es = (map snd (index_properties o) ++ named_properties o)%list
      /\ Sorted N.le (map fst (index_properties o))
      /\ Forall (fun ie => array_index (fst (snd ie)) = Some (fst ie))
                (index_properties o))
  /\ (NoDup (map fst members) ->
      Forall (fun m => array_index (fst m) = None) members ->
      es = members)
  /\ (forall name d, In (name, d) es -> within_exact_range d ->
      computed_spotsLeft d
      = Some (max_participants d - Z.of_nat (List.length (participants d)))%Z
      /\ computed_availability_text d
         = Some (number_to_string
                   (max_participants d - Z.of_nat (List.length (participants d))))
      /\ (exists pre post,
          card_innerHTML name d
          = pre ++ "<p><strong>Availability:</strong> "
                ++ number_to_string
                     (max_participants d - Z.of_nat (List.length (participants d)))
                ++ " spots left</p>" ++ post)
      /\ parse_integer
           (number_to_string
              (max_participants d - Z.of_nat (List.length (participants d))))
         = Some (max_participants d - Z.of_nat (List.length (participants d)))%Z
      /\ (max_participants d = Z.of_nat (List.length (participants d)) ->
          computed_availability_text d = Some "0"
          /\ availability_line d
             = "<p><strong>Availability:</strong> 0 spots left</p>")).
Proof.
  intros o es w'. subst o es w'. rewrite fetchActivities_resume_ok. simpl.
  split; [reflexivity|].
  split; [apply entries_permutation|].
  split; [now rewrite length_map, entries_length|].
  split.
  { split; [reflexivity|].
    split; [apply index_properties_sorted|apply index_properties_index]. }
  split.
  - intros Hnd Hni. rewrite json_parse_distinct by exact Hnd.
    now apply entries_named.
  - intros name d _ Hr.
    destruct (computed_spotsLeft_exact d Hr) as [Hc Ht].
    split; [exact Hc|]. split; [exact Ht|]. split; [|split].
    + destruct (card_has_availability_line name d) as (pre & post & E).
      exists pre, post. rewrite E. unfold availability_line, spotsLeft.
      rewrite !append_assoc. reflexivity.
    + apply number_roundtrip.
    + intros E. split.
      * rewrite Ht, E, Z.sub_diag. reflexivity.
      * unfold availability_line, spotsLeft. rewrite E, Z.sub_diag.
        reflexivity.
Qed.

Lemma cards_follow_object_entries_witness :
  entries (json_parse_object [("Chess Club", chess_club); ("Art Club", chess_club)])
  = [("Chess Club", chess_club); ("Art Club", chess_club)]
  /\ computed_availability_text chess_club = Some "2".
Proof.
  split.
  - apply (cards_follow_object_entries true
             [("Chess Club", chess_club); ("Art Club", chess_club)] example_page).
    + repeat constructor; simpl; intuition discriminate.
    + repeat constructor.
  - apply (proj2 (proj2 (proj2 (proj2 (proj2
             (cards_follow_object_entries true
                [("Chess Club", chess_club); ("Art Club", chess_club)]
                example_page)))))
             "Chess Club" chess_club).
    + left. reflexivity.
    + unfold within_exact_range, safe_integer. vm_compute.
      repeat split; intros H; discriminate H.
Defined.

(** C2, the claim as stated fails: the name [Art "Club"] has a double
    quote, which ends the attribute value in the markup; the two controls
    of the card carry [Art ] (with its trailing space), not the name of the
    activity. *)
Lemma quoted_name_counterexample :
  let name := "Art " ++ Q ++ "Club" ++ Q in
  let d := mkDetails "d" "s" 2 ["a@b.com"; "c@d.org"] in
  removal_controls (card_innerHTML name d)
  = Some [(Some "Art ", Some "a@b.com"); (Some "Art ", Some "c@d.org")]
  /\ removal_controls (card_innerHTML name d)
     <> Some (map (fun p => (Some name, Some p)) (participants d)).
Proof. split; [vm_compute; reflexivity | vm_compute; intros H; discriminate H]. Qed.

(** C2, amended.  The values are interpolated into the markup as they are.
    When the name of the activity and the addresses of its participants are
    inert in HTML (no [<], no double quote, no [&], no NUL, no carriage
    return) and the description and the schedule have no [<], the card has
    exactly one removal control per participant, in order, and each control
    carries the name of the activity and the address of the participant as
    [data-activity] and [data-email]; with no participant the block is the
    fixed placeholder markup, it shows one placeholder element and no
    removal control; with participants it shows no placeholder. *)
Theorem controls_of_inert_card (name : string) (d : details) :
  html_inert name = true ->
  text_inert (description d) = true ->
  text_inert (schedule d) = true ->
  Forall (fun p => html_inert p = true) (participants d) ->
  removal_controls (card_innerHTML name d)
  = Some (map (fun p => (Some name, Some p)) (participants d))
  /\ (participants d = [] ->
      participantsHTML name d = no_participants_block
      /\ removal_controls (card_innerHTML name d) = Some []
      /\ placeholders (card_innerHTML name d)
         = Some [mkElement "div" [("class", "no-participants")]])
  /\ (participants d <> [] ->
      placeholders (card_innerHTML name d) = Some []).
Proof.
  intros Hn Hd Hs Hps.
  unfold removal_controls, placeholders.
  rewrite (elements_card name d Hn Hd Hs Hps). cbn [option_map].
  assert (Hc : map control_data
                 (filter is_removal_control
                    (heading_elements ++ block_elements name (participants d)))
               = map (fun p => (Some name, Some p)) (participants d)).
  { rewrite filter_app, map_app.
    destruct (participants d) as [|p ps]; [reflexivity|].
    unfold block_elements. rewrite filter_app, map_app, controls_of_items.
    reflexivity. }
  split; [now rewrite Hc|]. split.
  - intros E. rewrite Hc. unfold participantsHTML. rewrite E.
    repeat split; reflexivity.
  - intros Hne. destruct (participants d) as [|p ps]; [congruence|].
    unfold block_elements. rewrite !filter_app, placeholders_of_items.
    reflexivity.
Qed.

Lemma controls_of_inert_card_witness :
  removal_controls
    (card_innerHTML "Chess Club" (mkDetails "d" "s" 2 ["a@b.com"; "c@d.org"]))
  = Some [(Some "Chess Club", Some "a@b.com"); (Some "Chess Club", Some "c@d.org")].
Proof.
  apply (controls_of_inert_card "Chess Club"
           (mkDetails "d" "s" 2 ["a@b.com"; "c@d.org"])).
  - reflexivity.
  - reflexivity.
  - reflexivity.
  - repeat constructor.
Defined.

(** *** The signup form *)

(** C3, the claim as stated fails: a non-2xx answer whose [detail] is
    present and is the empty string shows the generic fallback, not the
    detail, because [||] takes the empty string for a missing value. *)
Lemma empty_detail_counterexample :
  let res := mkResult None (Some EmptyString) in
  let w := signupForm_submit_resume (Responded false res) example_page in
  text (messageDiv w) = Some "An error occurred"
  /\ text (messageDiv w) <> detail res.
Proof. split; [reflexivity | vm_compute; intros H; discriminate H]. Qed.

(** C3, amended.  On a 2xx answer to a signup the text of the message is
    the [message] field of the body, the class is [success], the form is
    reset to the values of the page and one read of the catalog is issued.
    On a non-2xx answer the text is the [detail] of the body when it is
    present and not empty, the generic fallback otherwise; the class is
    [error], the form keeps its values and no request is issued. *)
Theorem signup_answer_shown (res : result) (w : World) :
  let ws := signupForm_submit_resume (Responded true res) w in
  let we := signupForm_submit_resume (Responded false res) w in
  (text (messageDiv ws) = message res
   /\ classes (messageDiv ws) = ["success"]
   /\ signupForm ws = formDefaults w
   /\ requests ws = (requests w ++ [mkRequest GET "/activities"])%list)
  /\ ((forall s, detail res = Some s -> s <> EmptyString ->
       text (messageDiv we) = Some s)
      /\ (detail res = None \/ detail res = Some EmptyString ->
          text (messageDiv we) = Some "An error occurred")
      /\ classes (messageDiv we) = ["error"]
      /\ signupForm we = signupForm w
      /\ requests we = requests w).
Proof.
  intros ws we. subst ws we. split.
  - repeat split; reflexivity.
  - split; [|split; [|repeat split; reflexivity]].
    + intros s E Hs. cbn. rewrite E. cbn.
      destruct (String.eqb_spec s EmptyString); [contradiction|reflexivity].
    + intros [E|E]; cbn; rewrite E; reflexivity.
Qed.

Lemma signup_answer_shown_witness :
  text (messageDiv
          (signupForm_submit_resume
             (Responded false (mkResult None (Some "Already signed up")))
             example_page))
  = Some "Already signed up".
Proof.
  apply (signup_answer_shown (mkResult None (Some "Already signed up"))
                             example_page).
  - reflexivity.
  - discriminate.
Defined.

(** *** A failed read *)

(** C4.  When the read of the catalog fails, because [fetch] rejects or
    because the body does not parse, the list area holds one paragraph with
    the fixed text [Failed to load activities. Please try again later.]
    and nothing else (no card, no removal control), the select is as it
    was, and nothing is retried: no request is issued and no timer is
    set. *)
Theorem failed_read_shows_failure_only (w : World) :
  let failed (w' : World) :=
      activitiesList w'
      = [Markup "<p>Failed to load activities. Please try again later.</p>"]
      /\ (forall c h, ~ In (Card c h) (activitiesList w'))
      /\ activitySelect w' = activitySelect w
      /\ requests w' = requests w
      /\ timers w' = timers w
      /\ messageDiv w' = messageDiv w in
  failed (fetchActivities_resume NetworkError w)
  /\ (forall ok, failed (fetchActivities_resume (BodyParseError ok) w))
  /\ elements "<p>Failed to load activities. Please try again later.</p>"
     = Some [mkElement "p" []].
Proof.
  cbv zeta. split; [|split; [intros ok|vm_compute; reflexivity]];
    (repeat split; try reflexivity;
     intros c h [H|[]]; discriminate H).
Qed.

(** *** Encoding of the values *)





(** *** What a render replaces *)

(** A successful render empties the list before it appends the cards; it
    appends the options to the select without emptying it. *)
Lemma render_replaces_list_appends_options
      (ok : bool) (members : list (string * details)) (w : World) :
  let es := entries (json_parse_object members) in
  let w' := fetchActivities_resume (Responded ok members) w in
  activitiesList w' = map card_of es
  /\ activitySelect w' = (activitySelect w ++ map option_of es)%list.
Proof. cbv zeta. rewrite fetchActivities_resume_ok. split; reflexivity. Qed.

(** C6, on the code: two successful reads of the same one-activity catalog.
    The list holds the card of the second read only, but the select keeps
    the option of the first read next to the option of the second: the
    select is not replaced. *)
Theorem select_keeps_previous_options :
  let catalog := [("Chess Club", chess_club)] in
  let w1 := fetchActivities_resume (Responded true catalog) example_page in
  let w2 := fetchActivities_resume (Responded true catalog) w1 in
  activitiesList w2 = map card_of catalog
  /\ activitySelect w2
     = [mkOption EmptyString "-- Select an activity --";
        mkOption "Chess Club" "Chess Club";
        mkOption "Chess Club" "Chess Club"]
  /\ activitySelect w2
     <> (activitySelect example_page ++ map option_of catalog)%list.
Proof.
  cbv zeta. split; [|split].
  - vm_compute. reflexivity.
  - vm_compute. reflexivity.
  - vm_compute. intros H. discriminate H.
Qed.

(** *** The message box and its timers *)

(** C7, on the code: the timers set by each path.  A signup that was
    answered sets a timer of 5000 ms, whatever the status; a signup whose
    request or body failed sets none, and its message stays shown.  An
    unregistration sets 3000 ms on success, 5000 ms on a non-2xx answer and
    5000 ms on a failed request or body. *)
Theorem hide_timers_set_by_each_path (w : World) :
  (forall ok res,
      timers (signupForm_submit_resume (Responded ok res) w)
      = (timers w ++ [now w + 5000])%list)
  /\ (timers (signupForm_submit_resume NetworkError w) = timers w
      /\ hidden (signupForm_submit_resume NetworkError w) = false
      /\ text (messageDiv (signupForm_submit_resume NetworkError w))
         = Some "Failed to sign up. Please try again.")
  /\ (forall ok,
      timers (signupForm_submit_resume (BodyParseError ok) w) = timers w)
  /\ (forall res,
      timers (unregisterParticipant_resume (Responded true res) w)
      = (timers w ++ [now w + 3000])%list)
  /\ (forall res,
      timers (unregisterParticipant_resume (Responded false res) w)
      = (timers w ++ [now w + 5000])%list)
  /\ (timers (unregisterParticipant_resume NetworkError w)
      = (timers w ++ [now w + 5000])%list)
  /\ (forall ok,
      timers (unregisterParticipant_resume (BodyParseError ok) w)
      = (timers w ++ [now w + 5000])%list).
Proof.
  repeat split; try reflexivity.
  intros [] res; reflexivity.
Qed.

(** C8, the claim as stated fails.  A signup is refused at time 0 (timer
    due at 5000); at time 4000 an unregistration succeeds and shows its
    message with a delay of 3000 ms (timer due at 7000).  At time 5000,
    1000 ms after the second message was shown, the timer of the first
    message runs and hides the second message. *)
Lemma earlier_timer_hides_later_message :
  let w1 := signupForm_submit_resume
              (Responded false (mkResult None (Some "Already signed up")))
              example_page in
  let w2 := unregisterParticipant_resume
              (Responded true (mkResult (Some "Removed a@b.com") None))
              (elapse 4000 w1) in
  let w3 := elapse 1000 w2 in
  timers w2 = [5000; 7000]
  /\ hidden w2 = false
  /\ now w2 = 4000
  /\ now w3 = 5000
  /\ now w3 - now w2 < 3000
  /\ text (messageDiv w3) = Some "Removed a@b.com"
  /\ hidden w3 = true.
Proof.
  cbv zeta. repeat split; try (vm_compute; reflexivity).
  apply Nat.ltb_lt. vm_compute. reflexivity.
Qed.

Lemma messageDiv_classList_add_hidden (w : World) :
  hidden (messageDiv_classList_add "hidden" w) = true.
Proof.
  unfold hidden, messageDiv_classList_add, set_messageDiv.
  cbn [messageDiv classes].
  destruct (existsb (String.eqb "hidden") (classes (messageDiv w))) eqn:E.
  - exact E.
  - rewrite existsb_app. cbn [existsb].
    rewrite String.eqb_refl. simpl. apply orb_true_r.
Qed.

(** C8, amended.  There is one message box: after an answer the box (text
    and classes) depends on the answer only, not on what it showed before.
    No timer is ever cancelled: the timers that were pending are still
    pending after a new message is shown, followed by the timer of the new
    message when its path sets one; and a pending timer that comes due hides
    the box whatever message it shows then, so the timer of an earlier
    message may hide a later message before the delay of the later one has
    elapsed. *)
Theorem one_message_box_timers_never_cancelled (r : outcome result) (w : World) :
  (forall w0,
      messageDiv (signupForm_submit_resume r w)
      = messageDiv (signupForm_submit_resume r w0)
      /\ messageDiv (unregisterParticipant_resume r w)
         = messageDiv (unregisterParticipant_resume r w0))
  /\ (exists own, timers (signupForm_submit_resume r w) = (timers w ++ own)%list)
  /\ (exists own, timers (unregisterParticipant_resume r w) = (timers w ++ own)%list)
  /\ (forall d t, In t (timers w) -> t <= now w + d ->
      hidden (elapse d w) = true
      /\ text (messageDiv (elapse d w)) = text (messageDiv w)).
Proof.
  split; [|split; [|split]].
  - intros w0. destruct r as [|ok|[] res]; split; reflexivity.
  - destruct r as [|ok|[] res];
      [exists [] | exists [] | exists [now w + 5000] | exists [now w + 5000]];
      cbn; rewrite ?app_nil_r; reflexivity.
  - destruct r as [|ok|[] res];
      [exists [now w + 5000] | exists [now w + 5000]
       | exists [now w + 3000] | exists [now w + 5000]];
      reflexivity.
  - intros d t Hin Hle. unfold elapse.
    destruct (filter (fun x => Nat.leb x (now w + d)) (timers w)) as [|x l] eqn:E.
    + exfalso.
      assert (Hf : In t (filter (fun x => Nat.leb x (now w + d)) (timers w))).
      { apply filter_In. split; [exact Hin|]. now apply Nat.leb_le. }
      rewrite E in Hf. exact Hf.
    + split.
      * unfold seq, set_timers, hidden. cbn.
        exact (messageDiv_classList_add_hidden w).
      * reflexivity.
Qed.

Lemma one_message_box_timers_never_cancelled_witness :
  let w := elapse 4000
             (signupForm_submit_resume
                (Responded false (mkResult None (Some "Already signed up")))
                example_page) in
  hidden (elapse 1000 w) = true
  /\ text (messageDiv (elapse 1000 w)) = text (messageDiv w).
Proof.
  cbv zeta.
  apply (one_message_box_timers_never_cancelled NetworkError
           (elapse 4000
              (signupForm_submit_resume
                 (Responded false (mkResult None (Some "Already signed up")))
                 example_page))) with (t := 5000).
  - vm_compute. left. reflexivity.
  - vm_compute. repeat constructor.
Defined.

(** C9.  On a 2xx answer to a signup or to an unregistration the text of
    the message is the [message] field of the body, whatever it holds: when
    the field is missing, the missing value itself is assigned and no
    fallback text takes its place.  Only the non-2xx branch has a fallback
    text. *)
Theorem success_text_is_message_field (res : result) (w : World) :
  text (messageDiv (signupForm_submit_resume (Responded true res) w)) = message res
  /\ text (messageDiv (unregisterParticipant_resume (Responded true res) w))
     = message res
  /\ (forall dt,
      text (messageDiv (signupForm_submit_resume
                          (Responded true (mkResult None dt)) w)) = None
      /\ text (messageDiv (unregisterParticipant_resume
                             (Responded true (mkResult None dt)) w)) = None)
  /\ (forall m,
      text (messageDiv (signupForm_submit_resume
                          (Responded false (mkResult m None)) w))
      = Some "An error occurred"
      /\ text (messageDiv (unregisterParticipant_resume
                             (Responded false (mkResult m None)) w))
         = Some "Failed to unregister participant").
Proof. repeat split; reflexivity. Qed.

(** *** More participants than places *)




End Properties.

(* ================================================================== *)
(** ** The scenarios of the specification, run on the model *)
(* ================================================================== *)

Module Scenarios.
Import Js Html App.

(** The page after the first read of the one-activity catalog. *)
Lemma first_render :
  let w := fetchActivities_resume (Responded true [("Chess Club", chess_club)])
             (initialize example_page) in
  requests w = [mkRequest GET "/activities"]
  /\ activitiesList w = [Card "activity-card" (card_innerHTML "Chess Club" chess_club)]
  /\ activitySelect w = [mkOption EmptyString "-- Select an activity --";
                         mkOption "Chess Club" "Chess Club"].
Proof. cbv zeta. repeat split; vm_compute; reflexivity. Qed.

(** Signup accepted: message shown as [success], form reset, second read. *)
Lemma signup_success_scenario :
  let loaded := fetchActivities_resume
                  (Responded true [("Chess Club", chess_club)])
                  (initialize example_page) in
  let w := signupForm_submit_resume
             (Responded true (mkResult (Some "Signed up a@b.com") None))
             (signupForm_submit_call loaded) in
  messageDiv w = mkMessage (Some "Signed up a@b.com") ["success"]
  /\ signupForm w = mkForm EmptyString EmptyString
  /\ timers w = [5000]
  /\ requests w = [mkRequest GET "/activities";
                   mkRequest POST "/activities/Chess%20Club/signup?email=a%40b.com";
                   mkRequest GET "/activities"].
Proof. cbv zeta. repeat split; vm_compute; reflexivity. Qed.

(** Signup refused: detail shown as [error], form kept, no second read. *)
Lemma signup_failure_scenario :
  let loaded := fetchActivities_resume
                  (Responded true [("Chess Club", chess_club)])
                  (initialize example_page) in
  let w := signupForm_submit_resume
             (Responded false (mkResult None (Some "Already signed up")))
             (signupForm_submit_call loaded) in
  messageDiv w = mkMessage (Some "Already signed up") ["error"]
  /\ signupForm w = mkForm "a@b.com" "Chess Club"
  /\ timers w = [5000]
  /\ requests w = [mkRequest GET "/activities";
                   mkRequest POST "/activities/Chess%20Club/signup?email=a%40b.com"].
Proof. cbv zeta. repeat split; vm_compute; reflexivity. Qed.

(** A click on the removal control read from the markup of a card, with the
    confirmation declined: the question names the address and the activity,
    nothing is sent and the message box is untouched. *)
Lemma unregister_declined_scenario :
  let target := control_element "Chess Club" "a@b.com" in
  let w := activitiesList_click target false example_page in
  confirms w = ["Are you sure you want to remove a@b.com from Chess Club?"]
  /\ requests w = requests example_page
  /\ messageDiv w = messageDiv example_page
  /\ timers w = timers example_page.
Proof. cbv zeta. repeat split; vm_compute; reflexivity. Qed.

(** The same click confirmed, then a 2xx answer: request with both values
    encoded, message shown as [success], a new read, a timer of 3000 ms. *)
Lemma unregister_success_scenario :
  let target := control_element "Chess Club" "a@b.com" in
  let w := unregisterParticipant_resume
             (Responded true (mkResult (Some "Removed a@b.com") None))
             (activitiesList_click target true example_page) in
  requests w = [mkRequest DELETE "/activities/Chess%20Club/unregister/a%40b.com";
                mkRequest GET "/activities"]
  /\ messageDiv w = mkMessage (Some "Removed a@b.com") ["success"]
  /\ timers w = [3000].
Proof. cbv zeta. repeat split; vm_compute; reflexivity. Qed.

(** A click elsewhere in the list is ignored. *)
Lemma click_elsewhere_ignored (confirmed : bool) (w : World) :
  activitiesList_click (mkElement "span" [("class", "participant-email")])
                       confirmed w = w.
Proof. reflexivity. Qed.

(** Rendering the same catalog again gives the same list of cards. *)
Lemma list_render_idempotent
      (ok : bool) (members : list (string * details)) (w : World) :
  activitiesList (fetchActivities_resume (Responded ok members)
                    (fetchActivities_resume (Responded ok members) w))
  = activitiesList (fetchActivities_resume (Responded ok members) w).
Proof. now rewrite !Properties.fetchActivities_resume_ok. Qed.

End Scenarios.

(* ================================================================== *)
(** ** Further properties: the request URLs *)
(* ================================================================== *)

Module Urls.
Import Js Html App HtmlFacts JsFacts.

Lemma length_append (a b : string) :
  String.length (a ++ b) = String.length a + String.length b.
Proof. induction a as [|c a IH]; simpl; [reflexivity|now rewrite IH]. Qed.

Lemma append_inj_l (p a b : string) : p ++ a = p ++ b -> a = b.
Proof.
  induction p as [|c p IH]; simpl; intros H; [exact H|].
  injection H. exact IH.
Qed.

Lemma append_inj_r (a b c : string) : a ++ c = b ++ c -> a = b.
Proof.
  revert b. induction a as [|x a IH]; intros [|y b] H.
  - reflexivity.
  - apply (f_equal String.length) in H. simpl in H.
    rewrite length_append in H. lia.
  - apply (f_equal String.length) in H. simpl in H.
    rewrite length_append in H. lia.
  - simpl in H. injection H as -> H. now rewrite (IH b H).
Qed.

(** Two texts without the byte [c], each followed by [c] and a rest: when
    the wholes are equal, so are the parts. *)
Lemma split_at_first (c : ascii) (x x' r r' : string) :
  string_forall (fun y => negb (Ascii.eqb y c)) x = true ->
  string_forall (fun y => negb (Ascii.eqb y c)) x' = true ->
  x ++ String c r = x' ++ String c r' -> x = x' /\ r = r'.
Proof.
  revert x'. induction x as [|a x IH]; intros [|a' x'] Hx Hx' H; simpl in *.
  - injection H as ->. now split.
  - injection H as <- _. apply andb_true_iff in Hx' as [Ha _].
    rewrite Ascii.eqb_refl in Ha. discriminate.
  - injection H as -> _. apply andb_true_iff in Hx as [Ha _].
    rewrite Ascii.eqb_refl in Ha. discriminate.
  - injection H as -> H. apply andb_true_iff in Hx as [_ Hx].
    apply andb_true_iff in Hx' as [_ Hx'].
    destruct (IH x' Hx Hx' H) as [-> ->]. now split.
Qed.

Lemma unreserved_not_slash (c : ascii) :
  uri_unreserved c = true -> negb (Ascii.eqb c "/") = true.
Proof.
  intros H.
  assert (E : (negb (uri_unreserved c) || negb (Ascii.eqb c "/")) = true).
  { clear H. revert c. apply all_bytes. vm_compute. reflexivity. }
  rewrite H in E. exact E.
Qed.

Lemma percent_byte_no_slash (c : ascii) :
  string_forall (fun y => negb (Ascii.eqb y "/")) (percent_byte c) = true.
Proof. revert c. apply all_bytes. vm_compute. reflexivity. Qed.

(** An encoded value has no [/]: it stays inside its path segment. *)
Lemma encodeURIComponent_no_slash (s : string) :
  string_forall (fun y => negb (Ascii.eqb y "/")) (encodeURIComponent s) = true.
Proof.
  induction s as [|c s IH]; [reflexivity|].
  cbn [encodeURIComponent].
  destruct (uri_unreserved c) eqn:Hc.
  - cbn [string_forall]. rewrite (unreserved_not_slash c Hc). exact IH.
  - rewrite string_forall_app. now rewrite percent_byte_no_slash, IH.
Qed.

Lemma encodeURIComponent_injective (a b : string) :
  encodeURIComponent a = encodeURIComponent b -> a = b.
Proof.
  intros H. pose proof (percent_decode_encode a) as Ha.
  rewrite H, percent_decode_encode in Ha. now injection Ha.
Qed.

(** Encoding never shortens a text and at most triples its length. *)
Lemma encodeURIComponent_length (s : string) :
  String.length s <= String.length (encodeURIComponent s) <= 3 * String.length s.
Proof.
  induction s as [|c s IH]; [simpl; lia|].
  cbn [encodeURIComponent].
  destruct (uri_unreserved c).
  - cbn [String.length]. lia.
  - rewrite length_append. unfold percent_byte. cbn [String.length]. lia.
Qed.

(** X1.  The URL of a signup determines the activity and the address: two
    submissions are sent to the same URL only when they name the same
    activity and the same address.  No value can run over into the other
    part of the URL. *)
Theorem signup_url_injective (a e a' e' : string) :
  signup_url a e = signup_url a' e' -> a = a' /\ e = e'.
Proof.
  unfold signup_url. intros H.
  apply append_inj_l in H.
  change ("/signup?email=" ++ encodeURIComponent e)
    with (String "/" ("signup?email=" ++ encodeURIComponent e)) in H.
  change ("/signup?email=" ++ encodeURIComponent e')
    with (String "/" ("signup?email=" ++ encodeURIComponent e')) in H.
  apply split_at_first in H; try apply encodeURIComponent_no_slash.
  destruct H as [Ha He]. apply append_inj_l in He.
  split; now apply encodeURIComponent_injective.
Qed.

Lemma signup_url_injective_witness :
  "Chess Club" = "Chess Club" /\ "a/b?c@d.com" = "a/b?c@d.com".
Proof.
  apply (signup_url_injective "Chess Club" "a/b?c@d.com" "Chess Club" "a/b?c@d.com").
  reflexivity.
Defined.

(** X2.  The URL of an unregistration determines the activity and the
    address, although both are path segments: a [/] inside a value is
    encoded and cannot move the boundary between the two segments. *)
Theorem unregister_url_injective (a e a' e' : string) :
  unregister_url a e = unregister_url a' e' -> a = a' /\ e = e'.
Proof.
  unfold unregister_url. intros H.
  apply append_inj_l in H.
  change ("/unregister/" ++ encodeURIComponent e)
    with (String "/" ("unregister/" ++ encodeURIComponent e)) in H.
  change ("/unregister/" ++ encodeURIComponent e')
    with (String "/" ("unregister/" ++ encodeURIComponent e')) in H.
  apply split_at_first in H; try apply encodeURIComponent_no_slash.
  destruct H as [Ha He]. apply append_inj_l in He.
  split; now apply encodeURIComponent_injective.
Qed.

Lemma unregister_url_injective_witness :
  "Art/unregister/x" = "Art/unregister/x" /\ "a@b.com" = "a@b.com".
Proof.
  apply (unregister_url_injective "Art/unregister/x" "a@b.com"
                                  "Art/unregister/x" "a@b.com").
  reflexivity.
Defined.

(** [encodeURIComponent] leaves a text unchanged exactly when all its
    bytes are unreserved (letters, digits and [- _ . ! ~ * ' ( )]); any
    other byte, [%] included, changes the text. *)
Theorem encodeURIComponent_fixed_points (s : string) :
  encodeURIComponent s = s <-> string_forall uri_unreserved s = true.
Proof.
  induction s as [|c s IH]; [simpl; tauto|].
  cbn [encodeURIComponent string_forall].
  destruct (uri_unreserved c) eqn:Hc; simpl.
  - rewrite <- IH. split; [intros H; now injection H|intros ->; reflexivity].
  - split; [|discriminate].
    intros H. exfalso.
    apply (f_equal String.length) in H.
    unfold percent_byte in H. cbn [append String.length] in H.
    pose proof (encodeURIComponent_length s). lia.
Qed.

(** X3.  For two entries within the exact range ([max_participants] and
    the difference are safe integers), the browser computes the difference
    itself, and the two cards show the same availability paragraph exactly
    when their numbers of remaining places are equal: the printed number
    loses nothing of [max_participants - participants.length]. *)
Theorem availability_text_determines_spots (d1 d2 : details) :
  within_exact_range d1 -> within_exact_range d2 ->
  computed_spotsLeft d1 = Some (spotsLeft d1)
  /\ computed_spotsLeft d2 = Some (spotsLeft d2)
  /\ (computed_availability_text d1 = computed_availability_text d2
      <-> spotsLeft d1 = spotsLeft d2)
  /\ (availability_line d1 = availability_line d2
      <-> spotsLeft d1 = spotsLeft d2).
Proof.
  intros H1 H2.
  destruct (Properties.computed_spotsLeft_exact d1 H1) as [C1 T1].
  destruct (Properties.computed_spotsLeft_exact d2 H2) as [C2 T2].
  fold (spotsLeft d1) in C1, T1. fold (spotsLeft d2) in C2, T2.
  split; [exact C1|]. split; [exact C2|].
  assert (Inj : number_to_string (spotsLeft d1) = number_to_string (spotsLeft d2)
                -> spotsLeft d1 = spotsLeft d2).
  { intros H. pose proof (number_roundtrip (spotsLeft d1)) as R.
    rewrite H, number_roundtrip in R. now injection R. }
  split.
  - rewrite T1, T2. split; [|now intros ->].
    intros H. injection H as H. now apply Inj.
  - unfold availability_line. split; [|now intros ->].
    intros H. apply append_inj_l, append_inj_r in H. now apply Inj.
Qed.

Lemma availability_text_determines_spots_witness :
  spotsLeft (mkDetails "d" "s" 3 ["a@b.com"])
  = spotsLeft (mkDetails "e" "t" 5 ["a@b.com"; "c@d.org"; "e@f.net"]).
Proof.
  apply (availability_text_determines_spots
           (mkDetails "d" "s" 3 ["a@b.com"])
           (mkDetails "e" "t" 5 ["a@b.com"; "c@d.org"; "e@f.net"])).
  - unfold within_exact_range, safe_integer. vm_compute.
    repeat split; intros H; discriminate H.
  - unfold within_exact_range, safe_integer. vm_compute.
    repeat split; intros H; discriminate H.
  - reflexivity.
Defined.

End Urls.

(* ================================================================== *)
(** ** Further properties: the catalog, the cards and the clicks *)
(* ================================================================== *)

Module Catalog.
Import Js Html App HtmlFacts JsFacts MarkupFacts.

(** *** The names of one render *)

Lemma set_property_keys (V : Type) (k : string) (v : V) (o : object V) :
  map fst (set_property k v o)
  = if existsb (String.eqb k) (map fst o) then map fst o
    else (map fst o ++ [k])%list.
Proof.
  induction o as [|[k' v'] o IH]; simpl; [reflexivity|].
  destruct (String.eqb_spec k k') as [->|Hk]; simpl; [reflexivity|].
  rewrite IH. now destruct (existsb (String.eqb k) (map fst o)).
Qed.

Lemma existsb_eqb_In (k : string) (l : list string) :
  existsb (String.eqb k) l = true <-> In k l.
Proof.
  rewrite existsb_exists. split.
  - intros (x & Hx & E). apply String.eqb_eq in E. now subst.
  - intros H. exists k. split; [exact H|apply String.eqb_refl].
Qed.

Lemma set_property_NoDup (V : Type) (k : string) (v : V) (o : object V) :
  NoDup (map fst o) -> NoDup (map fst (set_property k v o)).
Proof.
  intros H. rewrite set_property_keys.
  destruct (existsb (String.eqb k) (map fst o)) eqn:E; [exact H|].
  apply NoDup_app; [exact H|repeat constructor; intros []|].
  intros x Hx [<-|[]].
  apply existsb_eqb_In in Hx. congruence.
Qed.

Lemma set_property_In (V : Type) (k : string) (v : V) (o : object V) (x : string) :
  In x (map fst (set_property k v o)) <-> x = k \/ In x (map fst o).
Proof.
  rewrite set_property_keys.
  destruct (existsb (String.eqb k) (map fst o)) eqn:E.
  - apply existsb_eqb_In in E. split; [now right|]. intros [->|H]; assumption.
  - rewrite in_app_iff. simpl. intuition.
Qed.

Lemma fold_set_property_keys (V : Type) (ms acc : list (string * V)) :
  NoDup (map fst acc) ->
  NoDup (map fst (fold_left (fun o m => set_property (fst m) (snd m) o) ms acc))
  /\ forall x,
      In x (map fst (fold_left (fun o m => set_property (fst m) (snd m) o) ms acc))
      <-> In x (map fst acc) \/ In x (map fst ms).
Proof.
  revert acc. induction ms as [|[k v] ms IH]; intros acc H; simpl.
  - split; [exact H|]. intros x. tauto.
  - destruct (IH (set_property k v acc) (set_property_NoDup V k v acc H))
      as [H1 H2].
    split; [exact H1|]. intros x. rewrite H2, set_property_In. intuition.
Qed.

(** X4.  In one render no two cards and no two appended options have the
    same activity name, even when the response repeats a name; the names
    rendered are exactly the names that occur in the response; the k-th
    appended option has the name of the k-th card as its value and as its
    label. *)
Theorem one_card_per_distinct_name
        (ok : bool) (members : list (string * details)) (w : World) :
  let es := entries (json_parse_object members) in
  let w' := fetchActivities_resume (Responded ok members) w in
  NoDup (map fst es)
  /\ (forall name, In name (map fst es) <-> In name (map fst members))
  /\ activitiesList w'
     = map (fun e => Card "activity-card" (card_innerHTML (fst e) (snd e))) es
  /\ activitySelect w'
     = (activitySelect w ++ map (fun e => mkOption (fst e) (fst e)) es)%list.
Proof.
  cbv zeta.
  destruct (fold_set_property_keys details members [] (NoDup_nil _)) as [Hnd Hin].
  fold (json_parse_object members) in Hnd, Hin.
  pose proof (entries_permutation (json_parse_object members)) as Hp.
  split; [|split; [|split]].
  - eapply Permutation_NoDup; [|exact Hnd].
    apply Permutation_map, Permutation_sym, Hp.
  - intros name. split; intros H.
    + assert (H' : In name (map fst (json_parse_object members))).
      { eapply Permutation_in; [apply Permutation_map, Hp|exact H]. }
      apply Hin in H'. destruct H' as [[]|H']. exact H'.
    + eapply Permutation_in; [apply Permutation_map, Permutation_sym, Hp|].
      apply Hin. now right.
  - now rewrite Properties.fetchActivities_resume_ok.
  - now rewrite Properties.fetchActivities_resume_ok.
Qed.

(** *** The elements of a card with inert values *)

Lemma item_elements_length (name : string) (ps : list string) :
  List.length (flat_map (item_elements name) ps) = 3 * List.length ps.
Proof.
  induction ps as [|p ps IH]; [reflexivity|].
  change (flat_map (item_elements name) (p :: ps))
    with (item_elements name p ++ flat_map (item_elements name) ps)%list.
  rewrite length_app, IH. simpl. lia.
Qed.

Lemma item_elements_attributes (name : string) (ps : list string) :
  Forall (fun e =>
            Forall (fun a => In (fst a)
                               ["class"; "data-activity"; "data-email"; "title"])
                   (attrs e))
         (flat_map (item_elements name) ps).
Proof.
  induction ps as [|p ps IH]; [constructor|].
  change (flat_map (item_elements name) (p :: ps))
    with (item_elements name p ++ flat_map (item_elements name) ps)%list.
  apply Forall_app. split; [|exact IH].
  repeat constructor; simpl; tauto.
Qed.

(** X5.  When the values of a card are inert in HTML, the browser builds
    from its markup nine elements plus three per participant, and every
    attribute of every element is one of [class], [data-activity],
    [data-email] and [title]: the values add no element and no attribute
    (in particular no event handler). *)
Theorem inert_card_has_template_elements_only (name : string) (d : details) :
  html_inert name = true ->
  text_inert (description d) = true ->
  text_inert (schedule d) = true ->
  Forall (fun p => html_inert p = true) (participants d) ->
  exists es,
    elements (card_innerHTML name d) = Some es
    /\ List.length es = 9 + 3 * List.length (participants d)
    /\ Forall (fun e =>
                 Forall (fun a => In (fst a)
                                    ["class"; "data-activity"; "data-email"; "title"])
                        (attrs e)) es.
Proof.
  intros Hn Hd Hs Hps.
  exists (heading_elements ++ block_elements name (participants d))%list.
  split; [now apply elements_card|]. split.
  - rewrite length_app. unfold block_elements.
    destruct (participants d) as [|p ps]; [reflexivity|].
    rewrite length_app, item_elements_length. simpl. lia.
  - apply Forall_app. split.
    + repeat constructor.
    + unfold block_elements. destruct (participants d) as [|p ps].
      * repeat constructor; simpl; tauto.
      * apply Forall_app. split; [repeat constructor; simpl; tauto|].
        apply item_elements_attributes.
Qed.

Lemma inert_card_has_template_elements_only_witness :
  exists es,
    elements (card_innerHTML "Chess Club"
                (mkDetails "Learn & play chess" "Fridays > 3pm" 2 ["a@b.com"]))
    = Some es
    /\ List.length es = 9 + 3 * 1
    /\ Forall (fun e =>
                 Forall (fun a => In (fst a)
                                    ["class"; "data-activity"; "data-email"; "title"])
                        (attrs e)) es.
Proof.
  apply (inert_card_has_template_elements_only "Chess Club"
           (mkDetails "Learn & play chess" "Fridays > 3pm" 2 ["a@b.com"])).
  - reflexivity.
  - reflexivity.
  - reflexivity.
  - repeat constructor.
Defined.

(** *** From a rendered control to the request *)

Lemma controls_of_card_elements (name : string) (ps : list string) :
  filter is_removal_control (heading_elements ++ block_elements name ps)
  = map (control_element name) ps.
Proof.
  rewrite filter_app.
  change (filter is_removal_control heading_elements) with (@nil element).
  cbn [app].
  destruct ps as [|p ps]; [reflexivity|].
  unfold block_elements. rewrite filter_app.
  match goal with |- (?a ++ _)%list = _ => change a with (@nil element) end.
  cbn [app]. generalize (p :: ps). clear.
  induction l as [|q l IH]; [reflexivity|].
  change (flat_map (item_elements name) (q :: l))
    with (item_elements name q ++ flat_map (item_elements name) l)%list.
  rewrite filter_app, IH. reflexivity.
Qed.

(** X6.  Rendering, clicking and requesting compose.  For a card with
    inert values, a confirmed click on the k-th removal control that the
    browser builds from the markup asks to confirm the removal of the k-th
    participant from this activity and sends the [DELETE] request whose
    path segments are the encoded name of the activity and the encoded
    address of that participant; a click on any other element of the card
    does nothing. *)
Theorem rendered_controls_unregister_their_participant
        (name : string) (d : details) (w : World) :
  html_inert name = true ->
  text_inert (description d) = true ->
  text_inert (schedule d) = true ->
  Forall (fun p => html_inert p = true) (participants d) ->
  exists es,
    elements (card_innerHTML name d) = Some es
    /\ map (fun target => requests (activitiesList_click target true w))
           (filter is_removal_control es)
       = map (fun p => (requests w
                        ++ [mkRequest DELETE
                              ("/activities/" ++ encodeURIComponent name
                               ++ "/unregister/" ++ encodeURIComponent p)%string])%list)
             (participants d)
    /\ map (fun target => confirms (activitiesList_click target true w))
           (filter is_removal_control es)
       = map (fun p => (confirms w
                        ++ [("Are you sure you want to remove " ++ p ++ " from "
                             ++ name ++ "?")%string])%list)
             (participants d)
    /\ Forall (fun target =>
                 is_removal_control target = false ->
                 forall confirmed, activitiesList_click target confirmed w = w) es.
Proof.
  intros Hn Hd Hs Hps.
  exists (heading_elements ++ block_elements name (participants d))%list.
  split; [now apply elements_card|].
  rewrite controls_of_card_elements, !map_map. split; [|split].
  - apply map_ext. intros p. reflexivity.
  - apply map_ext. intros p. reflexivity.
  - apply Forall_forall. intros t _ Ht confirmed.
    unfold activitiesList_click. unfold is_removal_control in Ht.
    now rewrite Ht.
Qed.

Lemma rendered_controls_unregister_their_participant_witness :
  exists es,
    elements (card_innerHTML "Chess Club" (mkDetails "d" "s" 2 ["a@b.com"]))
    = Some es
    /\ map (fun target => requests (activitiesList_click target true example_page))
           (filter is_removal_control es)
       = [[mkRequest DELETE "/activities/Chess%20Club/unregister/a%40b.com"]].
Proof.
  destruct (rendered_controls_unregister_their_participant
              "Chess Club" (mkDetails "d" "s" 2 ["a@b.com"]) example_page)
    as (es & He & Hr & _).
  - reflexivity.
  - reflexivity.
  - reflexivity.
  - repeat constructor.
  - exists es. split; [exact He|exact Hr].
Defined.

(** *** Clicks *)

Lemma click_requests (target : element) (confirmed : bool) (w : World) :
  requests (activitiesList_click target confirmed w)
  = (requests w
     ++ (if (classList_contains "delete-participant-btn" target && confirmed)%bool
         then [mkRequest DELETE
                 (unregister_url
                    (attribute_text (getAttribute "data-activity" target))
                    (attribute_text (getAttribute "data-email" target)))]
         else []))%list.
Proof.
  unfold activitiesList_click, unregisterParticipant_call.
  destruct (classList_contains "delete-participant-btn" target), confirmed;
    cbn [andb]; rewrite ?app_nil_r; reflexivity.
Qed.

(** X7.  A click in the list sends a request exactly when its target has
    the class [delete-participant-btn] and the user confirms; whatever the
    target and the answer to the confirmation, the click itself changes
    neither the message box, nor the timers, nor the list. *)
Theorem click_sends_only_when_control_and_confirmed
        (target : element) (confirmed : bool) (w : World) :
  (requests (activitiesList_click target confirmed w) <> requests w
   <-> classList_contains "delete-participant-btn" target = true
       /\ confirmed = true)
  /\ messageDiv (activitiesList_click target confirmed w) = messageDiv w
  /\ timers (activitiesList_click target confirmed w) = timers w
  /\ activitiesList (activitiesList_click target confirmed w) = activitiesList w.
Proof.
  split.
  - rewrite click_requests.
    destruct (classList_contains "delete-participant-btn" target), confirmed;
      cbn [andb]; rewrite ?app_nil_r.
    + split; [now split|]. intros _ H.
      apply (f_equal (@List.length request)) in H.
      rewrite length_app in H. simpl in H. lia.
    + split; [intros H; now contradiction H|intros [_ H]; discriminate H].
    + split; [intros H; now contradiction H|intros [H _]; discriminate H].
    + split; [intros H; now contradiction H|intros [H _]; discriminate H].
  - unfold activitiesList_click, unregisterParticipant_call.
    destruct (classList_contains "delete-participant-btn" target), confirmed;
      repeat split; reflexivity.
Qed.

Lemma click_sends_only_when_control_and_confirmed_witness :
  requests (activitiesList_click (control_element "Chess Club" "a@b.com") true
                                 example_page)
  <> requests example_page.
Proof.
  apply (click_sends_only_when_control_and_confirmed
           (control_element "Chess Club" "a@b.com") true example_page).
  split; reflexivity.
Defined.

(** X8.  A confirmed click on an element that has the class of the removal
    controls but neither [data-activity] nor [data-email] still sends a
    request: [getAttribute] gives [null] and both path segments are the
    text [null]. *)
Theorem click_without_data_sends_null (target : element) (w : World) :
  classList_contains "delete-participant-btn" target = true ->
  getAttribute "data-activity" target = None ->
  getAttribute "data-email" target = None ->
  requests (activitiesList_click target true w)
  = (requests w ++ [mkRequest DELETE "/activities/null/unregister/null"])%list
  /\ confirms (activitiesList_click target true w)
     = (confirms w ++ ["Are you sure you want to remove null from null?"])%list.
Proof.
  intros Hc Ha He. unfold activitiesList_click. rewrite Hc, Ha, He.
  split; reflexivity.
Qed.

Lemma click_without_data_sends_null_witness :
  requests (activitiesList_click
              (mkElement "span" [("class", "x delete-participant-btn")])
              true example_page)
  = [mkRequest DELETE "/activities/null/unregister/null"].
Proof.
  apply (click_without_data_sends_null
           (mkElement "span" [("class", "x delete-participant-btn")])
           example_page).
  - reflexivity.
  - reflexivity.
  - reflexivity.
Defined.

End Catalog.

(* ================================================================== *)
(** ** Further properties: any sequence of events *)
(* ================================================================== *)

Module Traces.
Import Js Html App HtmlFacts JsFacts MarkupFacts.

Lemma run_events_app (evs1 evs2 : list event) (w : World) :
  run_events (evs1 ++ evs2) w = run_events evs2 (run_events evs1 w).
Proof. unfold run_events. apply fold_left_app. Qed.

Lemma run_events_cons (e : event) (evs : list event) (w : World) :
  run_events (e :: evs) w = run_events evs (handle e w).
Proof. reflexivity. Qed.

(** *** What each event leaves alone *)

Lemma elapse_frame (d : nat) (w : World) :
  activitiesList (elapse d w) = activitiesList w
  /\ activitySelect (elapse d w) = activitySelect w
  /\ text (messageDiv (elapse d w)) = text (messageDiv w)
  /\ signupForm (elapse d w) = signupForm w
  /\ requests (elapse d w) = requests w.
Proof.
  unfold elapse.
  destruct (filter (fun x => Nat.leb x (now w + d)) (timers w));
    repeat split; reflexivity.
Qed.

Lemma click_frame (target : element) (confirmed : bool) (w : World) :
  activitiesList (activitiesList_click target confirmed w) = activitiesList w
  /\ activitySelect (activitiesList_click target confirmed w) = activitySelect w
  /\ messageDiv (activitiesList_click target confirmed w) = messageDiv w
  /\ signupForm (activitiesList_click target confirmed w) = signupForm w
  /\ timers (activitiesList_click target confirmed w) = timers w.
Proof.
  unfold activitiesList_click, unregisterParticipant_call.
  destruct (classList_contains "delete-participant-btn" target), confirmed;
    repeat split; reflexivity.
Qed.

Lemma read_frame (r : outcome (list (string * details))) (w : World) :
  messageDiv (fetchActivities_resume r w) = messageDiv w
  /\ signupForm (fetchActivities_resume r w) = signupForm w
  /\ requests (fetchActivities_resume r w) = requests w
  /\ timers (fetchActivities_resume r w) = timers w
  /\ now (fetchActivities_resume r w) = now w.
Proof.
  destruct r as [|ok|ok members];
    [repeat split; reflexivity | repeat split; reflexivity |].
  rewrite Properties.fetchActivities_resume_ok. repeat split; reflexivity.
Qed.

Lemma handle_keeps_list (e : event) (w : World) :
  is_catalog_arrival e = false ->
  activitiesList (handle e w) = activitiesList w
  /\ activitySelect (handle e w) = activitySelect w.
Proof.
  destruct e as [|r| |r|t c|r|d]; intros H; try discriminate H; simpl handle.
  - split; reflexivity.
  - split; reflexivity.
  - destruct r as [|ok|[] res]; split; reflexivity.
  - destruct (click_frame t c w) as (H1 & H2 & _). now split.
  - destruct r as [|ok|[] res]; split; reflexivity.
  - destruct (elapse_frame d w) as (H1 & H2 & _). now split.
Qed.

Lemma run_events_keeps_list (evs : list event) (w : World) :
  forallb (fun e => negb (is_catalog_arrival e)) evs = true ->
  activitiesList (run_events evs w) = activitiesList w
  /\ activitySelect (run_events evs w) = activitySelect w.
Proof.
  revert w. induction evs as [|e evs IH]; intros w H; [split; reflexivity|].
  simpl in H. apply andb_true_iff in H as [He Hevs].
  apply negb_true_iff in He.
  rewrite run_events_cons. destruct (IH (handle e w) Hevs) as [H1 H2].
  destruct (handle_keeps_list e w He) as [H3 H4].
  split; congruence.
Qed.

(** X9.  Over any sequence of events, the list of cards and the select
    change only when a catalog arrives: submissions, answers to signups and
    unregistrations (accepted, refused or failed), clicks and timers leave
    the last render as it is. *)
Theorem list_changes_only_when_catalog_arrives (evs : list event) (w : World) :
  forallb (fun e => negb (is_catalog_arrival e)) evs = true ->
  activitiesList (run_events evs w) = activitiesList w
  /\ activitySelect (run_events evs w) = activitySelect w.
Proof. intros H. split; now apply run_events_keeps_list. Qed.

Lemma list_changes_only_when_catalog_arrives_witness :
  let evs := [FormSubmitted;
              SignupAnswered (Responded false (mkResult None (Some "Full")));
              ListClicked (control_element "Chess Club" "a@b.com") true;
              UnregisterAnswered NetworkError;
              TimePassed 6000] in
  activitiesList (run_events evs example_page) = activitiesList example_page
  /\ activitySelect (run_events evs example_page) = activitySelect example_page.
Proof.
  cbv zeta.
  apply (list_changes_only_when_catalog_arrives
           [FormSubmitted;
            SignupAnswered (Responded false (mkResult None (Some "Full")));
            ListClicked (control_element "Chess Club" "a@b.com") true;
            UnregisterAnswered NetworkError;
            TimePassed 6000] example_page).
  reflexivity.
Defined.

(** *** The last catalog wins *)

Lemma read_list_independent
      (r : outcome (list (string * details))) (w w0 : World) :
  activitiesList (fetchActivities_resume r w)
  = activitiesList (fetchActivities_resume r w0).
Proof.
  destruct r as [|ok|ok members]; [reflexivity|reflexivity|].
  now rewrite !Properties.fetchActivities_resume_ok.
Qed.

(** X10.  The list shows the outcome of the read that resumed last and
    nothing of what came before: whatever happened earlier (other reads
    included, in any order of arrival) and whatever happens afterwards
    short of another arrival, the list is the one this outcome alone
    produces, cards or failure paragraph. *)
Theorem last_catalog_wins
        (before after : list event) (r : outcome (list (string * details)))
        (w w0 : World) :
  forallb (fun e => negb (is_catalog_arrival e)) after = true ->
  activitiesList (run_events (before ++ CatalogArrived r :: after) w)
  = activitiesList (fetchActivities_resume r w0).
Proof.
  intros H. rewrite run_events_app, run_events_cons.
  destruct (run_events_keeps_list after
              (handle (CatalogArrived r) (run_events before w)) H) as [H1 _].
  rewrite H1. apply read_list_independent.
Qed.

Lemma last_catalog_wins_witness :
  activitiesList
    (run_events
       ([PageLoaded; CatalogArrived (Responded true [("Art Club", chess_club)])]
        ++ CatalogArrived (Responded true [("Chess Club", chess_club)])
        :: [TimePassed 10])
       example_page)
  = activitiesList
      (fetchActivities_resume (Responded true [("Chess Club", chess_club)])
                              example_page).
Proof.
  apply (last_catalog_wins
           [PageLoaded; CatalogArrived (Responded true [("Art Club", chess_club)])]
           [TimePassed 10]
           (Responded true [("Chess Club", chess_club)])
           example_page example_page).
  reflexivity.
Defined.

Lemma handle_select_grows (e : event) (w : World) :
  exists added, activitySelect (handle e w) = (activitySelect w ++ added)%list.
Proof.
  destruct (is_catalog_arrival e) eqn:E.
  - destruct e as [|r| |r|t c|r|d]; try discriminate E. simpl handle.
    destruct r as [|ok|ok members].
    + exists []. now rewrite app_nil_r.
    + exists []. now rewrite app_nil_r.
    + rewrite Properties.fetchActivities_resume_ok. eexists. reflexivity.
  - exists []. rewrite app_nil_r. now apply handle_keeps_list.
Qed.

(** X11.  No event ever removes, replaces or reorders an option of the
    select: after any sequence of events the options that were there are
    still there, in the same order, before the options added since. *)
Theorem select_only_grows (evs : list event) (w : World) :
  exists added,
    activitySelect (run_events evs w) = (activitySelect w ++ added)%list.
Proof.
  revert w. induction evs as [|e evs IH]; intros w.
  - exists []. now rewrite app_nil_r.
  - rewrite run_events_cons.
    destruct (IH (handle e w)) as (a2 & H2).
    destruct (handle_select_grows e w) as (a1 & H1).
    exists (a1 ++ a2)%list. rewrite H2, H1. now rewrite app_assoc.
Qed.

(** *** The message and the form *)

Lemma handle_keeps_text (e : event) (w : World) :
  is_answer e = false ->
  text (messageDiv (handle e w)) = text (messageDiv w).
Proof.
  destruct e as [|r| |r|t c|r|d]; intros H; try discriminate H; simpl handle.
  - reflexivity.
  - destruct (read_frame r w) as (H1 & _). now rewrite H1.
  - reflexivity.
  - destruct (click_frame t c w) as (_ & _ & H1 & _). now rewrite H1.
  - now destruct (elapse_frame d w) as (_ & _ & H1 & _).
Qed.

(** X12.  Over any sequence of events, the text of the message box changes
    only when a signup or an unregistration is answered: reads of the
    catalog (failed ones included), submissions, clicks, declined
    confirmations and timers never write a message. *)
Theorem message_changes_only_on_answers (evs : list event) (w : World) :
  forallb (fun e => negb (is_answer e)) evs = true ->
  text (messageDiv (run_events evs w)) = text (messageDiv w).
Proof.
  revert w. induction evs as [|e evs IH]; intros w H; [reflexivity|].
  simpl in H. apply andb_true_iff in H as [He Hevs].
  apply negb_true_iff in He.
  rewrite run_events_cons, (IH (handle e w) Hevs).
  now apply handle_keeps_text.
Qed.

Lemma message_changes_only_on_answers_witness :
  text (messageDiv
          (run_events [PageLoaded; CatalogArrived NetworkError; FormSubmitted;
                       ListClicked (control_element "Chess Club" "a@b.com") false;
                       TimePassed 9000] example_page))
  = text (messageDiv example_page).
Proof.
  apply (message_changes_only_on_answers
           [PageLoaded; CatalogArrived NetworkError; FormSubmitted;
            ListClicked (control_element "Chess Club" "a@b.com") false;
            TimePassed 9000] example_page).
  reflexivity.
Defined.

Lemma handle_keeps_form (e : event) (w : World) :
  resets_form e = false -> signupForm (handle e w) = signupForm w.
Proof.
  destruct e as [|r| |r|t c|r|d]; intros H; simpl handle.
  - reflexivity.
  - now destruct (read_frame r w) as (_ & H1 & _).
  - reflexivity.
  - destruct r as [|ok|[] res]; try discriminate H; reflexivity.
  - now destruct (click_frame t c w) as (_ & _ & _ & H1 & _).
  - destruct r as [|ok|[] res]; reflexivity.
  - now destruct (elapse_frame d w) as (_ & _ & _ & H1 & _).
Qed.

(** X13.  Over any sequence of events, what the student typed in the form
    is kept unless a signup is accepted: a refused signup, a signup whose
    request or body failed, every unregistration and every read leave the
    fields as they are. *)
Theorem form_changes_only_on_accepted_signup (evs : list event) (w : World) :
  forallb (fun e => negb (resets_form e)) evs = true ->
  signupForm (run_events evs w) = signupForm w.
Proof.
  revert w. induction evs as [|e evs IH]; intros w H; [reflexivity|].
  simpl in H. apply andb_true_iff in H as [He Hevs].
  apply negb_true_iff in He.
  rewrite run_events_cons, (IH (handle e w) Hevs).
  now apply handle_keeps_form.
Qed.

Lemma form_changes_only_on_accepted_signup_witness :
  signupForm
    (run_events [FormSubmitted;
                 SignupAnswered (Responded false (mkResult None None));
                 FormSubmitted; SignupAnswered NetworkError;
                 UnregisterAnswered (Responded true (mkResult (Some "ok") None));
                 CatalogArrived (Responded true [("Chess Club", chess_club)])]
                example_page)
  = signupForm example_page.
Proof.
  apply (form_changes_only_on_accepted_signup
           [FormSubmitted;
            SignupAnswered (Responded false (mkResult None None));
            FormSubmitted; SignupAnswered NetworkError;
            UnregisterAnswered (Responded true (mkResult (Some "ok") None));
            CatalogArrived (Responded true [("Chess Club", chess_club)])]
           example_page).
  reflexivity.
Defined.

(** *** One read per load and per accepted change *)

Lemma handle_catalog_requests (e : event) (w : World) :
  catalog_requests (handle e w)
  = catalog_requests w + (if starts_read e then 1 else 0).
Proof.
  unfold catalog_requests.
  destruct e as [|r| |r|t c|r|d]; simpl handle; simpl starts_read.
  - unfold initialize, fetchActivities_call, fetch. cbn [requests set_requests].
    rewrite filter_app, length_app. reflexivity.
  - destruct (read_frame r w) as (_ & _ & H & _). rewrite H. lia.
  - unfold signupForm_submit_call, fetch. cbn [requests set_requests].
    rewrite filter_app, length_app. cbn. lia.
  - destruct r as [|ok|[] res]; cbn [accepted];
      try (cbn; lia).
    unfold signupForm_submit_resume, seq. cbn.
    rewrite filter_app, length_app. reflexivity.
  - rewrite Catalog.click_requests, filter_app, length_app.
    destruct (classList_contains "delete-participant-btn" t && c)%bool;
      simpl; lia.
  - destruct r as [|ok|[] res]; cbn [accepted];
      try (cbn; lia).
    unfold unregisterParticipant_resume, seq. cbn.
    rewrite filter_app, length_app. reflexivity.
  - destruct (elapse_frame d w) as (_ & _ & _ & _ & H). rewrite H. lia.
Qed.

(** X14.  Over any sequence of events, the number of reads of the catalog
    that were requested grows by exactly the number of page loads, accepted
    signups and accepted unregistrations: each of them starts one read,
    and nothing else does (no retry after a failed read, no read after a
    refused or failed change, none on a timer). *)
Theorem one_read_per_load_and_accepted_change (evs : list event) (w : World) :
  catalog_requests (run_events evs w)
  = catalog_requests w + List.length (filter starts_read evs).
Proof.
  revert w. induction evs as [|e evs IH]; intros w; [simpl; lia|].
  rewrite run_events_cons, IH, handle_catalog_requests.
  simpl. destruct (starts_read e); simpl; lia.
Qed.

End Traces.

(* ================================================================== *)
(** ** Further properties: the message box *)
(* ================================================================== *)

Module Messages.
Import Js Html App HtmlFacts JsFacts.

Lemma answer_classes (r : outcome result) (w : World) :
  classes (messageDiv (signupForm_submit_resume r w))
  = [if accepted r then "success" else "error"]
  /\ classes (messageDiv (unregisterParticipant_resume r w))
     = [if accepted r then "success" else "error"].
Proof. destruct r as [|ok|[] res]; split; reflexivity. Qed.

(** X15.  After the answer to a signup or to an unregistration the box is
    visible and has exactly one class; the class is [success] exactly when
    the response is 2xx with a readable body, and [error] in every other
    case (non-2xx, failed request, unreadable body), whatever the box
    showed before. *)
Theorem severity_follows_status (r : outcome result) (w : World) :
  (classes (messageDiv (signupForm_submit_resume r w)) = ["success"]
   <-> accepted r = true)
  /\ (classes (messageDiv (unregisterParticipant_resume r w)) = ["success"]
      <-> accepted r = true)
  /\ (classes (messageDiv (signupForm_submit_resume r w)) = ["error"]
      <-> accepted r = false)
  /\ (classes (messageDiv (unregisterParticipant_resume r w)) = ["error"]
      <-> accepted r = false)
  /\ hidden (signupForm_submit_resume r w) = false
  /\ hidden (unregisterParticipant_resume r w) = false.
Proof.
  destruct (answer_classes r w) as [Hs Hu].
  unfold hidden. rewrite Hs, Hu.
  destruct (accepted r); repeat split; intros H;
    try reflexivity; try discriminate H.
Qed.

Lemma severity_follows_status_witness :
  classes (messageDiv (signupForm_submit_resume (BodyParseError true) example_page))
  = ["error"].
Proof.
  apply (severity_follows_status (BodyParseError true) example_page).
  reflexivity.
Defined.

Lemma or_else_not_empty (x : option string) (fallback : string) :
  fallback <> EmptyString -> or_else x fallback <> EmptyString.
Proof.
  intros Hf. unfold or_else. destruct x as [s|]; [|exact Hf].
  destruct (String.eqb_spec s EmptyString); assumption.
Qed.

(** X16.  An error message is never blank: when a signup or an
    unregistration is not accepted, the text of the box is a text that is
    not empty, whether the body has no [detail], an empty [detail], or
    could not be read at all. *)
Theorem error_text_never_blank (r : outcome result) (w : World) :
  accepted r = false ->
  (exists s, text (messageDiv (signupForm_submit_resume r w)) = Some s
             /\ s <> EmptyString)
  /\ (exists s, text (messageDiv (unregisterParticipant_resume r w)) = Some s
                /\ s <> EmptyString).
Proof.
  destruct r as [|ok|[] res]; intros H; try discriminate H; split;
    try (eexists; split; [reflexivity|discriminate]).
  - exists (or_else (detail res) "An error occurred"). split; [reflexivity|].
    apply or_else_not_empty. discriminate.
  - exists (or_else (detail res) "Failed to unregister participant").
    split; [reflexivity|]. apply or_else_not_empty. discriminate.
Qed.

Lemma error_text_never_blank_witness :
  (exists s, text (messageDiv
                     (signupForm_submit_resume
                        (Responded false (mkResult None (Some EmptyString)))
                        example_page)) = Some s
             /\ s <> EmptyString)
  /\ (exists s, text (messageDiv
                        (unregisterParticipant_resume
                           (Responded false (mkResult None (Some EmptyString)))
                           example_page)) = Some s
                /\ s <> EmptyString).
Proof.
  apply (error_text_never_blank
           (Responded false (mkResult None (Some EmptyString))) example_page).
  reflexivity.
Defined.

(** *** One severity, over any sequence of events *)

Lemma shows_severity_elapse (d : nat) (w : World) :
  shows_severity w -> shows_severity (elapse d w).
Proof.
  intros (c & Hc & Hcl). exists c. split; [exact Hc|].
  unfold elapse.
  destruct (filter (fun x => Nat.leb x (now w + d)) (timers w)) as [|x l].
  - exact Hcl.
  - unfold seq, set_timers, messageDiv_classList_add, set_messageDiv.
    cbn [messageDiv classes].
    destruct Hcl as [E|E]; rewrite E.
    + right. destruct Hc as [-> | ->]; reflexivity.
    + right. destruct Hc as [-> | ->]; reflexivity.
Qed.

Lemma shows_severity_answer (r : outcome result) (w : World) :
  shows_severity (signupForm_submit_resume r w)
  /\ shows_severity (unregisterParticipant_resume r w).
Proof.
  destruct (answer_classes r w) as [Hs Hu].
  split; exists (if accepted r then "success" else "error");
    (split; [destruct (accepted r); auto | now left]).
Qed.

Lemma shows_severity_same_box (w w' : World) :
  messageDiv w' = messageDiv w -> shows_severity w -> shows_severity w'.
Proof. unfold shows_severity. now intros ->. Qed.

Lemma shows_severity_handle (e : event) (w : World) :
  shows_severity w \/ is_answer e = true -> shows_severity (handle e w).
Proof.
  destruct e as [|r| |r|t c|r|d]; simpl handle; simpl is_answer;
    intros [H|H]; try discriminate H.
  - exact H.
  - apply (shows_severity_same_box w); [|exact H].
    now destruct (Traces.read_frame r w) as (H1 & _).
  - exact H.
  - apply shows_severity_answer.
  - apply shows_severity_answer.
  - apply (shows_severity_same_box w); [|exact H].
    now destruct (Traces.click_frame t c w) as (_ & _ & H1 & _).
  - apply shows_severity_answer.
  - apply shows_severity_answer.
  - now apply shows_severity_elapse.
Qed.

(** X17.  Once a signup or an unregistration has been answered, and from
    then on through any sequence of events, the class list of the box is
    one severity, [success] or [error], alone or followed by [hidden]: the
    two severities are never mixed and [hidden] is never doubled, however
    many answers and timers follow one another. *)
Theorem one_severity_after_any_answer (evs : list event) (w : World) :
  shows_severity w \/ existsb is_answer evs = true ->
  shows_severity (run_events evs w).
Proof.
  revert w. induction evs as [|e evs IH]; intros w H.
  - destruct H as [H|H]; [exact H|discriminate H].
  - rewrite Traces.run_events_cons. apply IH.
    destruct H as [H|H].
    + left. apply shows_severity_handle. now left.
    + simpl in H. apply orb_true_iff in H as [H|H].
      * left. apply shows_severity_handle. now right.
      * now right.
Qed.

Lemma one_severity_after_any_answer_witness :
  shows_severity
    (run_events [FormSubmitted;
                 SignupAnswered (Responded false (mkResult None None));
                 TimePassed 2000;
                 UnregisterAnswered (Responded true (mkResult (Some "ok") None));
                 TimePassed 3000; TimePassed 3000]
                example_page).
Proof.
  apply (one_severity_after_any_answer
           [FormSubmitted;
            SignupAnswered (Responded false (mkResult None None));
            TimePassed 2000;
            UnregisterAnswered (Responded true (mkResult (Some "ok") None));
            TimePassed 3000; TimePassed 3000]
           example_page).
  right. reflexivity.
Defined.

(** *** How long a message stays *)

Lemma hidden_after_delay (delay d : nat) (w : World) :
  timers w = [] -> hidden w = false ->
  hidden (elapse d (setTimeout_hide delay w)) = Nat.leb delay d.
Proof.
  intros Ht Hh. unfold elapse, setTimeout_hide, set_timers.
  cbn [timers now]. rewrite Ht. cbn [app filter].
  destruct (Nat.leb_spec delay d) as [Hle|Hgt].
  - rewrite (proj2 (Nat.leb_le (now w + delay) (now w + d))) by lia.
    unfold seq. cbn [messageDiv hidden].
    apply Properties.messageDiv_classList_add_hidden.
  - rewrite (proj2 (Nat.leb_gt (now w + delay) (now w + d))) by lia.
    exact Hh.
Qed.

(** X18.  When no timer is pending, a message stays visible for its delay
    and not longer: [d] milliseconds after the answer the box is hidden
    exactly when [d] has reached 5000 for an answered signup (accepted or
    refused), 3000 for an accepted unregistration, and 5000 for an
    unregistration that was refused or failed. *)
Theorem message_visible_for_its_delay (d : nat) (w : World) :
  timers w = [] ->
  (forall ok res,
      hidden (elapse d (signupForm_submit_resume (Responded ok res) w))
      = Nat.leb 5000 d)
  /\ (forall res,
      hidden (elapse d (unregisterParticipant_resume (Responded true res) w))
      = Nat.leb 3000 d)
  /\ (forall r, accepted r = false ->
      hidden (elapse d (unregisterParticipant_resume r w)) = Nat.leb 5000 d).
Proof.
  intros Ht. split; [|split].
  - intros ok res.
    change (signupForm_submit_resume (Responded ok res) w)
      with (setTimeout_hide 5000
              (messageDiv_classList_remove "hidden"
                 ((if ok then
                     messageDiv_set_textContent (message res) ;;
                     messageDiv_set_className "success" ;;
                     signupForm_reset ;;
                     fetchActivities_call
                   else
                     messageDiv_set_textContent
                       (Some (or_else (detail res) "An error occurred")) ;;
                     messageDiv_set_className "error") w))).
    apply hidden_after_delay; destruct ok;
      [exact Ht|exact Ht|reflexivity|reflexivity].
  - intros res.
    change (unregisterParticipant_resume (Responded true res) w)
      with (setTimeout_hide 3000
              (fetchActivities_call
                 (messageDiv_classList_remove "hidden"
                    (messageDiv_set_className "success"
                       (messageDiv_set_textContent (message res) w))))).
    apply hidden_after_delay; [exact Ht|reflexivity].
  - intros r Hr. destruct r as [|ok|[] res]; try discriminate Hr.
    + change (unregisterParticipant_resume NetworkError w)
        with (setTimeout_hide 5000
                (messageDiv_classList_remove "hidden"
                   (messageDiv_set_className "error"
                      (messageDiv_set_textContent
                         (Some "Failed to unregister participant. Please try again.")
                         (console_error "Error unregistering participant:" w))))).
      apply hidden_after_delay; [exact Ht|reflexivity].
    + change (unregisterParticipant_resume (BodyParseError ok) w)
        with (setTimeout_hide 5000
                (messageDiv_classList_remove "hidden"
                   (messageDiv_set_className "error"
                      (messageDiv_set_textContent
                         (Some "Failed to unregister participant. Please try again.")
                         (console_error "Error unregistering participant:" w))))).
      apply hidden_after_delay; [exact Ht|reflexivity].
    + change (unregisterParticipant_resume (Responded false res) w)
        with (setTimeout_hide 5000
                (messageDiv_classList_remove "hidden"
                   (messageDiv_set_className "error"
                      (messageDiv_set_textContent
                         (Some (or_else (detail res) "Failed to unregister participant"))
                         w)))).
      apply hidden_after_delay; [exact Ht|reflexivity].
Qed.

Lemma message_visible_for_its_delay_witness :
  hidden (elapse 2999
            (unregisterParticipant_resume
               (Responded true (mkResult (Some "Removed a@b.com") None))
               example_page))
  = Nat.leb 3000 2999.
Proof.
  exact (proj1 (proj2 (message_visible_for_its_delay 2999 example_page eq_refl))
               (mkResult (Some "Removed a@b.com") None)).
Defined.

End Messages.
